(** * Session Binding Operator: a shallow embedding of the reconciler

    This development embeds the Go sources

      - [api/v1alpha1/sessionbinding_types.go]      (the resource schema),
      - [pkg/cloudflare/client.go]                  (the edge client),
      - [controllers/sessionbinding_controller.go]  (the reconciler)

    of the cloudflare-session-operator and proves properties of them.

    Conventions.
      - Go strings are [string]; typed string constants ([SessionBindingPhase],
        [corev1.PodPhase], [metav1.ConditionStatus]) stay strings, so that the
        zero value [""] is representable exactly as in Go.
      - [int32] / [int64] / [time.Duration] values are [Z]; the code performs
        no arithmetic on them, so no wrap-around arises.
      - [time.Time] is a [Z] counting nanoseconds from Go's zero instant, so
        that [IsZero t] is [t = 0]; a [*metav1.Time] is an [option].  In
        memory an instant keeps its nanoseconds; what the cluster stores of
        it has whole seconds.
      - A Go [error] value is [error]; a possibly-nil error is [option error].
      - A method that mutates its receiver or an argument through a pointer
        returns the updated object.
      - Calls to collaborators (cluster API, edge API, clock, recorder, logger)
        are threaded through a state monad over an abstract world [W] that
        also collects every call, with its outcome, in a trace. *)

From Stdlib Require Import ZArith.
From stdpp Require Import base option strings list gmap pretty.

Local Open Scope string_scope.
Local Open Scope list_scope.
Local Open Scope Z_scope.

(** ** Go errors *)

(** The [metav1.StatusReason] carried by apiserver errors. *)
Inductive StatusReason :=
| StatusReasonUnknown
| StatusReasonNotFound
| StatusReasonAlreadyExists
| StatusReasonConflict
| StatusReasonTimeout
| StatusReasonServiceUnavailable.

(** An [error] is either a plain message ([errors.New], [fmt.Errorf]) or an
    [apierrors.StatusError]. *)
Inductive error :=
| errorString (s : string)
| StatusError (reason : StatusReason) (message : string).

#[global] Instance StatusReason_eq_dec : EqDecision StatusReason.
Proof. solve_decision. Defined.
#[global] Instance error_eq_dec : EqDecision error.
Proof. solve_decision. Defined.

(** [err.Error()] *)
Definition Error (e : error) : string :=
  match e with
  | errorString s => s
  | StatusError _ m => m
  end.

(** [apierrors.IsNotFound] *)
Definition IsNotFound (e : error) : bool :=
  match e with
  | StatusError StatusReasonNotFound _ => true
  | _ => false
  end.

(** [client.IgnoreNotFound] *)
Definition IgnoreNotFound (e : error) : option error :=
  if IsNotFound e then None else Some e.

(** A call that fills an object on success and returns an error otherwise. *)
Inductive result (A : Type) :=
| Ok (a : A)
| Err (e : error).
Arguments Ok {A} a.
Arguments Err {A} e.

Definition result_err {A} (r : result A) : option error :=
  match r with Ok _ => None | Err e => Some e end.

(** ** Time *)

Definition Time := Z.
Definition Duration := Z.

Definition Second : Duration := 1000000000.
Definition Minute : Duration := 60 * Second.

(** [metav1.Time.IsZero] on a value and on a pointer. *)
Definition Time_IsZero (t : Time) : bool := Z.eqb t 0.
Definition TimePtr_IsZero (t : option Time) : bool :=
  match t with
  | None => true
  | Some t => Time_IsZero t
  end.

(** ** Object metadata *)

Record OwnerReference := {
  OwnerKind : string;
  OwnerName : string;
  OwnerController : bool;
}.

Record ObjectMeta := {
  Name : string;
  Namespace : string;
  Generation : Z;
  DeletionTimestamp : option Time;
  Finalizers : list string;
  Labels : option (gmap string string);
  Annotations : option (gmap string string);
  OwnerReferences : list OwnerReference;
}.

Record NamespacedName := {
  NNamespace : string;
  NName : string;
}.

#[global] Instance NamespacedName_eq_dec : EqDecision NamespacedName.
Proof. solve_decision. Defined.

Definition set_Finalizers (fs : list string) (m : ObjectMeta) : ObjectMeta :=
  {| Name := Name m; Namespace := Namespace m; Generation := Generation m;
     DeletionTimestamp := DeletionTimestamp m; Finalizers := fs;
     Labels := Labels m; Annotations := Annotations m;
     OwnerReferences := OwnerReferences m |}.

Definition set_OwnerReferences (os : list OwnerReference) (m : ObjectMeta) : ObjectMeta :=
  {| Name := Name m; Namespace := Namespace m; Generation := Generation m;
     DeletionTimestamp := DeletionTimestamp m; Finalizers := Finalizers m;
     Labels := Labels m; Annotations := Annotations m;
     OwnerReferences := os |}.

(** ** [metav1.Condition] and [meta.SetStatusCondition] helpers *)

Record Condition := {
  CType : string;
  CStatus : string;
  CObservedGeneration : Z;
  CLastTransitionTime : Time;
  CReason : string;
  CMessage : string;
}.

#[global] Instance Condition_eq_dec : EqDecision Condition.
Proof. solve_decision. Defined.

Definition ConditionTrue : string := "True".
Definition ConditionFalse : string := "False".
Definition ConditionUnknown : string := "Unknown".

(** [meta.FindStatusCondition]: the first condition of the given type. *)
Fixpoint FindStatusCondition (conditions : list Condition) (conditionType : string)
  : option Condition :=
  match conditions with
  | [] => None
  | c :: rest =>
      if decide (CType c = conditionType) then Some c
      else FindStatusCondition rest conditionType
  end.

(** Writing through the pointer returned by [FindStatusCondition]: the first
    condition of the given type is replaced. *)
Fixpoint storeStatusCondition (conditions : list Condition) (conditionType : string)
    (c' : Condition) : list Condition :=
  match conditions with
  | [] => []
  | c :: rest =>
      if decide (CType c = conditionType) then c' :: rest
      else c :: storeStatusCondition rest conditionType c'
  end.

(** ** api/v1alpha1: the SessionBinding resource *)

Module v1alpha1.

Definition SessionBindingPhasePending : string := "Pending".
Definition SessionBindingPhaseBound : string := "Bound".
Definition SessionBindingPhaseExpired : string := "Expired".
Definition SessionBindingPhaseError : string := "Error".

Definition ConditionSessionDiscovered : string := "SessionDiscovered".
Definition ConditionPodReady : string := "PodReady".
Definition ConditionRouteConfigured : string := "RouteConfigured".

Record SessionBindingSpec := {
  SessionID : string;
  UserID : string;
  TargetDeployment : string;
  TTLSeconds : option Z;
}.

Record SessionBindingStatus := {
  Phase : string;
  BoundPod : string;
  RouteEndpoint : string;
  ObservedGeneration : Z;
  Conditions : list Condition;
  LastReconcileTime : option Time;
}.

Record SessionBinding := {
  Meta : ObjectMeta;
  Spec : SessionBindingSpec;
  Status : SessionBindingStatus;
}.

#[global] Instance SessionBindingStatus_eq_dec : EqDecision SessionBindingStatus.
Proof. solve_decision. Defined.

End v1alpha1.
Import v1alpha1.

(** Field updates on the binding (assignments through the pointer). *)
Definition set_Meta (m : ObjectMeta) (b : SessionBinding) : SessionBinding :=
  {| Meta := m; Spec := Spec b; Status := Status b |}.
Definition set_Status (s : SessionBindingStatus) (b : SessionBinding) : SessionBinding :=
  {| Meta := Meta b; Spec := Spec b; Status := s |}.

Definition set_Phase (p : string) (s : SessionBindingStatus) : SessionBindingStatus :=
  {| Phase := p; BoundPod := BoundPod s; RouteEndpoint := RouteEndpoint s;
     ObservedGeneration := ObservedGeneration s; Conditions := Conditions s;
     LastReconcileTime := LastReconcileTime s |}.
Definition set_BoundPod (p : string) (s : SessionBindingStatus) : SessionBindingStatus :=
  {| Phase := Phase s; BoundPod := p; RouteEndpoint := RouteEndpoint s;
     ObservedGeneration := ObservedGeneration s; Conditions := Conditions s;
     LastReconcileTime := LastReconcileTime s |}.
Definition set_RouteEndpoint (e : string) (s : SessionBindingStatus) : SessionBindingStatus :=
  {| Phase := Phase s; BoundPod := BoundPod s; RouteEndpoint := e;
     ObservedGeneration := ObservedGeneration s; Conditions := Conditions s;
     LastReconcileTime := LastReconcileTime s |}.
Definition set_ObservedGeneration (g : Z) (s : SessionBindingStatus) : SessionBindingStatus :=
  {| Phase := Phase s; BoundPod := BoundPod s; RouteEndpoint := RouteEndpoint s;
     ObservedGeneration := g; Conditions := Conditions s;
     LastReconcileTime := LastReconcileTime s |}.
Definition set_Conditions (cs : list Condition) (s : SessionBindingStatus) : SessionBindingStatus :=
  {| Phase := Phase s; BoundPod := BoundPod s; RouteEndpoint := RouteEndpoint s;
     ObservedGeneration := ObservedGeneration s; Conditions := cs;
     LastReconcileTime := LastReconcileTime s |}.
Definition set_LastReconcileTime (t : option Time) (s : SessionBindingStatus) : SessionBindingStatus :=
  {| Phase := Phase s; BoundPod := BoundPod s; RouteEndpoint := RouteEndpoint s;
     ObservedGeneration := ObservedGeneration s; Conditions := Conditions s;
     LastReconcileTime := t |}.

(** ** The slice of [corev1] / [appsv1] the reconciler reads *)

Module corev1.

Definition PodRunning : string := "Running".
Definition PodReady : string := "Ready".
Definition ConditionTrue : string := "True".
Definition EventTypeNormal : string := "Normal".

Record ContainerPort := {
  ContainerPort_ : Z;   (* ContainerPort int32 *)
}.

Record Container := {
  ContainerName : string;
  Ports : list ContainerPort;
}.

Record PodSpec := {
  Containers : list Container;
}.

Record PodCondition := {
  PCType : string;
  PCStatus : string;
}.

Record PodStatus := {
  PodPhase : string;
  PodConditions : list PodCondition;
  PodIP : string;
}.

Record Pod := {
  PodMeta : ObjectMeta;
  PodSpec_ : PodSpec;
  PodStatus_ : PodStatus;
}.

Record PodTemplateSpec := {
  TemplateLabels : option (gmap string string);
  TemplateAnnotations : option (gmap string string);
  TemplateSpec : PodSpec;
}.

End corev1.
Import corev1.

Module appsv1.

Record Deployment := {
  DeploymentMeta : ObjectMeta;
  Template : PodTemplateSpec;   (* Spec.Template *)
}.

End appsv1.
Import appsv1.

(** ** controllers: the pure helpers *)

Definition sessionBindingFinalizer : string :=
  "sessionbinding.cloudflare.example.com/finalizer".
Definition podSessionLabelKey : string := "cloudflare.example.com/session-id".

(** [isPodReady]: the loop returns at the first Ready/True condition. *)
Fixpoint hasReadyCondition (conds : list PodCondition) : bool :=
  match conds with
  | [] => false
  | cond :: rest =>
      if bool_decide (PCType cond = PodReady) && bool_decide (PCStatus cond = corev1.ConditionTrue)
      then true
      else hasReadyCondition rest
  end.

Definition isPodReady (pod : Pod) : bool :=
  if bool_decide (PodPhase (PodStatus_ pod) ≠ PodRunning) then false
  else hasReadyCondition (PodConditions (PodStatus_ pod)).

(** The loop of [podEndpoint]: [port] is overwritten by the first port of the
    first container whose port list is non-empty, and the loop breaks there. *)
Fixpoint podEndpoint_port (port : Z) (containers : list Container) : Z :=
  match containers with
  | [] => port
  | container :: rest =>
      match Ports container with
      | p :: _ => ContainerPort_ p
      | [] => podEndpoint_port port rest
      end
  end.

(** [fmt.Sprintf("%s:%d", ip, port)] *)
Definition Sprintf_s_colon_d (s : string) (d : Z) : string :=
  s +:+ ":" +:+ pretty d.

Definition podEndpoint (pod : Pod) : string :=
  if bool_decide (PodIP (PodStatus_ pod) = "") then ""
  else
    let port := podEndpoint_port 80 (Containers (PodSpec_ pod)) in
    Sprintf_s_colon_d (PodIP (PodStatus_ pod)) port.

(** The endpoint derivation as the specification words it: only the first
    container is consulted. *)
Definition podEndpoint_first_container_only (pod : Pod) : string :=
  if bool_decide (PodIP (PodStatus_ pod) = "") then ""
  else
    let port :=
      match Containers (PodSpec_ pod) with
      | container :: _ =>
          match Ports container with
          | p :: _ => ContainerPort_ p
          | [] => 80
          end
      | [] => 80
      end in
    PodIP (PodStatus_ pod) +:+ ":" +:+ pretty port.

(** [controllerutil.ContainsFinalizer], [AddFinalizer], [RemoveFinalizer] *)
Definition ContainsFinalizer (b : SessionBinding) (finalizer : string) : bool :=
  bool_decide (finalizer ∈ Finalizers (Meta b)).

Definition AddFinalizer (b : SessionBinding) (finalizer : string) : SessionBinding :=
  if ContainsFinalizer b finalizer then b
  else set_Meta (set_Finalizers (Finalizers (Meta b) ++ [finalizer]) (Meta b)) b.

Definition RemoveFinalizer (b : SessionBinding) (finalizer : string) : SessionBinding :=
  set_Meta
    (set_Finalizers (filter (λ f, f ≠ finalizer) (Finalizers (Meta b))) (Meta b)) b.

(** ** pkg/cloudflare: the edge client *)

Module cloudflare.

(** An outbound request to the Cloudflare REST API. *)
Record HTTPRequest := {
  ReqMethod : string;
  ReqURL : string;
}.

Record APIClient := {
  HTTPTimeout : Duration;   (* HTTPClient: &http.Client{Timeout: ...} *)
  AccountID : string;
  APIToken : string;
}.

(** [NewClientFromEnv], with the two environment variables as arguments. *)
Definition NewClientFromEnv (CLOUDFLARE_ACCOUNT_ID CLOUDFLARE_API_TOKEN : string)
  : APIClient :=
  {| HTTPTimeout := 10 * Second;
     AccountID := CLOUDFLARE_ACCOUNT_ID;
     APIToken := CLOUDFLARE_API_TOKEN |}.

(** Each method returns its Go result together with the requests it sent
    through [HTTPClient]. *)
Definition EnsureSession (c : APIClient) (sessionID : string)
  : (bool * option error) * list HTTPRequest :=
  if bool_decide (sessionID = "") then
    ((false, Some (errorString "sessionID is empty")), [])
  else if bool_decide (APIToken c = "") || bool_decide (AccountID c = "") then
    ((true, None), [])
  else
    ((true, None), []).

Definition EnsureRoute (c : APIClient) (sessionID endpoint : string)
  : option error * list HTTPRequest :=
  if bool_decide (sessionID = "") then
    (Some (errorString "sessionID is empty"), [])
  else if bool_decide (endpoint = "") then
    (Some (errorString "endpoint is empty"), [])
  else if bool_decide (APIToken c = "") || bool_decide (AccountID c = "") then
    (None, [])
  else
    (None, []).

Definition DeleteRoute (c : APIClient) (sessionID : string)
  : option error * list HTTPRequest :=
  if bool_decide (sessionID = "") then
    (None, [])
  else if bool_decide (APIToken c = "") || bool_decide (AccountID c = "") then
    (None, [])
  else
    (None, []).

End cloudflare.


(** ** The collaborators of the reconciler

    Every collaborator is an interface in the Go source.  An implementation
    is a table of operations over the state [W] of the outside world. *)

(** [client.Client], restricted to the calls the reconciler issues.  [Get],
    [Update], [Create] and [Status().Update] overwrite the object they are
    given with the server's answer on success. *)
Record Client (W : Type) := {
  Get_SessionBinding : NamespacedName → W → result SessionBinding * W;
  Get_Pod : NamespacedName → W → result Pod * W;
  Get_Deployment : NamespacedName → W → result Deployment * W;
  Update : SessionBinding → W → result SessionBinding * W;
  Create : Pod → W → result Pod * W;
  Delete : Pod → W → option error * W;
  Status_Update : SessionBinding → W → result SessionBinding * W;
}.
Arguments Get_SessionBinding {W} _ _ _.
Arguments Get_Pod {W} _ _ _.
Arguments Get_Deployment {W} _ _ _.
Arguments Update {W} _ _ _.
Arguments Create {W} _ _ _.
Arguments Delete {W} _ _ _.
Arguments Status_Update {W} _ _ _.

(** [cloudflare.Client] *)
Record CloudflareClient (W : Type) := {
  CF_EnsureSession : string → W → (bool * option error) * W;
  CF_EnsureRoute : string → string → W → option error * W;
  CF_DeleteRoute : string → W → option error * W;
}.
Arguments CF_EnsureSession {W} _ _ _.
Arguments CF_EnsureRoute {W} _ _ _ _.
Arguments CF_DeleteRoute {W} _ _ _.

(** [recordEventRecorder] *)
Record EventRecorder (W : Type) := {
  Event : SessionBinding → string → string → string → W → W;
}.
Arguments Event {W} _ _ _ _ _ _.

(** [Clock] *)
Record Clock (W : Type) := {
  Now : W → Time * W;
}.
Arguments Now {W} _ _.

(** [*runtime.Scheme]: the kind registered for [v1alpha1.SessionBinding],
    if any. *)
Record Scheme := {
  SessionBindingKind : option string;
}.

(** [SessionBindingReconciler].  [time_Now] is the process clock [time.Now],
    which [meta.SetStatusCondition] reads for transition times; it is not a
    field of the Go struct. *)
Record SessionBindingReconciler (W : Type) := {
  rClient : Client W;
  rScheme : Scheme;
  CFClient : CloudflareClient W;
  Recorder : EventRecorder W;
  rClock : Clock W;
  time_Now : W → Time * W;
}.
Arguments rClient {W} _.
Arguments rScheme {W} _.
Arguments CFClient {W} _.
Arguments Recorder {W} _.
Arguments rClock {W} _.
Arguments time_Now {W} _ _.

(** The real edge client as a [cloudflare.Client]; the requests it sends are
    dropped here and studied on [cloudflare.EnsureSession] and its siblings. *)
Definition APIClient_Client {W : Type} (c : cloudflare.APIClient) : CloudflareClient W :=
  {| CF_EnsureSession sessionID w := (fst (cloudflare.EnsureSession c sessionID), w);
     CF_EnsureRoute sessionID endpoint w :=
       (fst (cloudflare.EnsureRoute c sessionID endpoint), w);
     CF_DeleteRoute sessionID w := (fst (cloudflare.DeleteRoute c sessionID), w) |}.

(** ** Traces *)

Record Result := {
  Requeue : bool;
  RequeueAfter : Duration;
}.

(** [ctrl.Result{}] *)
Definition Result_zero : Result := {| Requeue := false; RequeueAfter := 0 |}.
Definition Result_after (d : Duration) : Result := {| Requeue := false; RequeueAfter := d |}.

(** One entry per call to a collaborator, with the call's outcome. *)
Inductive Call :=
| CGetBinding (key : NamespacedName) (ret : result SessionBinding)
| CGetPod (key : NamespacedName) (ret : result Pod)
| CGetDeployment (key : NamespacedName) (ret : result Deployment)
| CUpdate (obj : SessionBinding) (ret : result SessionBinding)
| CCreate (obj : Pod) (ret : result Pod)
| CDelete (obj : Pod) (ret : option error)
| CStatusUpdate (obj : SessionBinding) (ret : result SessionBinding)
| CEnsureSession (sessionID : string) (ret : bool * option error)
| CEnsureRoute (sessionID endpoint : string) (ret : option error)
| CDeleteRoute (sessionID : string) (ret : option error)
| CEvent (eventtype reason message : string)
| CLogError (err : error) (msg : string)
| CLogInfo (msg : string)
| CClockNow (ret : Time)
| CTimeNow (ret : Time).

(** The reconciler monad: a computation runs on a world and yields its
    value, the world it leaves, and the calls it made, in order. *)
Definition M (W A : Type) : Type := W → A * W * list Call.

#[global] Instance M_ret {W} : MRet (M W) := λ A a w, (a, w, []).
#[global] Instance M_bind {W} : MBind (M W) :=
  λ A B f m w,
    let '(a, w1, d1) := m w in
    let '(b, w2, d2) := f a w1 in
    (b, w2, d1 ++ d2).

(** Perform [op] on the world and log it. *)
Definition call {W A} (op : W → A * W) (entry : A → Call) : M W A :=
  λ w, let '(a, w') := op w in (a, w', [entry a]).

(** Log an effect that returns nothing. *)
Definition emit {W} (op : W → W) (entry : Call) : M W unit :=
  λ w, (tt, op w, [entry]).

(** The three components of a run. *)
Definition value_of {W A} (m : M W A) (w : W) : A := (m w).1.1.
Definition world_after {W A} (m : M W A) (w : W) : W := (m w).1.2.
Definition calls {W A} (m : M W A) (w : W) : list Call := (m w).2.

(** Classification of trace entries. *)
Definition is_edge_call (c : Call) : bool :=
  match c with
  | CEnsureSession _ _ | CEnsureRoute _ _ _ | CDeleteRoute _ _ => true
  | _ => false
  end.

Definition is_cluster_write (c : Call) : bool :=
  match c with
  | CUpdate _ _ | CCreate _ _ | CDelete _ _ | CStatusUpdate _ _ => true
  | _ => false
  end.

Definition is_pod_call (c : Call) : bool :=
  match c with
  | CGetPod _ _ | CCreate _ _ | CDelete _ _ => true
  | _ => false
  end.

Definition is_event (c : Call) : bool :=
  match c with
  | CEvent _ _ _ => true
  | _ => false
  end.

Definition is_event_with_reason (reason : string) (c : Call) : bool :=
  match c with
  | CEvent _ r _ => bool_decide (r = reason)
  | _ => false
  end.

Definition is_metadata_write (c : Call) : bool :=
  match c with
  | CUpdate _ _ => true
  | _ => false
  end.

Definition is_status_write (c : Call) : bool :=
  match c with
  | CStatusUpdate _ _ => true
  | _ => false
  end.

(** A pod [Delete], whatever its outcome. *)
Definition is_pod_delete (c : Call) : bool :=
  match c with
  | CDelete _ _ => true
  | _ => false
  end.

(** ** controllers: the reconciler *)

Section Controller.

Context {W : Type}.
Variable r : SessionBindingReconciler W.

Definition logError (err : error) (msg : string) : M W unit :=
  emit id (CLogError err msg).
Definition logInfo (msg : string) : M W unit :=
  emit id (CLogInfo msg).

(** [r.Recorder.Event(binding, eventtype, reason, message)] *)
Definition recordEvent (binding : SessionBinding) (eventtype reason message : string)
  : M W unit :=
  emit (Event (Recorder r) binding eventtype reason message)
       (CEvent eventtype reason message).

(** [meta.SetStatusCondition] of k8s.io/apimachinery.  A condition of a new
    type is appended, stamped with [time.Now] when it carries no transition
    time; an existing one keeps its transition time unless its status
    changes, and takes the new reason, message and observed generation. *)
Definition SetStatusCondition (conditions : list Condition) (newCondition : Condition)
  : M W (list Condition) :=
  match FindStatusCondition conditions (CType newCondition) with
  | None =>
      if Time_IsZero (CLastTransitionTime newCondition) then
        now ← call (time_Now r) CTimeNow;
        mret (conditions ++
              [ {| CType := CType newCondition; CStatus := CStatus newCondition;
                   CObservedGeneration := CObservedGeneration newCondition;
                   CLastTransitionTime := now;
                   CReason := CReason newCondition;
                   CMessage := CMessage newCondition |} ])
      else mret (conditions ++ [newCondition])
  | Some existingCondition =>
      transition ←
        (if bool_decide (CStatus existingCondition ≠ CStatus newCondition) then
           if negb (Time_IsZero (CLastTransitionTime newCondition)) then
             mret (CLastTransitionTime newCondition)
           else call (time_Now r) CTimeNow
         else mret (CLastTransitionTime existingCondition));
      mret (storeStatusCondition conditions (CType newCondition)
              {| CType := CType existingCondition;
                 CStatus := CStatus newCondition;
                 CObservedGeneration := CObservedGeneration newCondition;
                 CLastTransitionTime := transition;
                 CReason := CReason newCondition;
                 CMessage := CMessage newCondition |})
  end.

Definition setCondition (conditions : list Condition)
    (condType status reason message : string) : M W (list Condition) :=
  SetStatusCondition conditions
    {| CType := condType; CStatus := status; CObservedGeneration := 0;
       CLastTransitionTime := 0; CReason := reason; CMessage := message |}.

(** [r.setCondition(&binding.Status.Conditions, ...)] *)
Definition setBindingCondition (binding : SessionBinding)
    (condType status reason message : string) : M W SessionBinding :=
  conditions ← setCondition (Conditions (Status binding)) condType status reason message;
  mret (set_Status (set_Conditions conditions (Status binding)) binding).

Definition setPhase (phase : string) (binding : SessionBinding) : SessionBinding :=
  set_Status (set_Phase phase (Status binding)) binding.

(** [controllerutil.SetControllerReference]: the owner's kind must be known
    to the scheme, a namespaced owner must share the namespace of the object
    it owns, and the reference is appended as the controller reference. *)
Definition SetControllerReference (owner : SessionBinding) (controlled : Pod)
    (scheme : Scheme) : result Pod :=
  match SessionBindingKind scheme with
  | None => Err (errorString "no kind is registered for the type v1alpha1.SessionBinding")
  | Some kind =>
      let ownerNs := Namespace (Meta owner) in
      let objNs := Namespace (PodMeta controlled) in
      if bool_decide (ownerNs ≠ "") && bool_decide (objNs = "") then
        Err (errorString "cluster-scoped resource must not have a namespace-scoped owner")
      else if bool_decide (ownerNs ≠ "") && bool_decide (ownerNs ≠ objNs) then
        Err (errorString "cross-namespace owner references are disallowed")
      else
        let ref := {| OwnerKind := kind; OwnerName := Name (Meta owner);
                      OwnerController := true |} in
        Ok {| PodMeta := set_OwnerReferences
                           (OwnerReferences (PodMeta controlled) ++ [ref])
                           (PodMeta controlled);
              PodSpec_ := PodSpec_ controlled;
              PodStatus_ := PodStatus_ controlled |}
  end.

Definition ensureSessionPod (binding : SessionBinding) : M W (result Pod) :=
  let sessionID := SessionID (Spec binding) in
  let podName := "session-" +:+ sessionID in
  let podKey := {| NNamespace := Namespace (Meta binding); NName := podName |} in
  got ← call (Get_Pod (rClient r) podKey) (CGetPod podKey);
  match got with
  | Ok pod => mret (Ok pod)
  | Err err =>
      if negb (IsNotFound err) then mret (Err err)
      else
        let deploymentKey :=
          {| NNamespace := Namespace (Meta binding);
             NName := TargetDeployment (Spec binding) |} in
        got ← call (Get_Deployment (rClient r) deploymentKey) (CGetDeployment deploymentKey);
        match got with
        | Err err =>
            _ ← logError err "target deployment not found";
            mret (Err err)
        | Ok deployment =>
            let template := Template deployment in
            let labels := default ∅ (TemplateLabels template) in
            let labels := <[podSessionLabelKey := sessionID]> labels in
            let labels :=
              <["app.kubernetes.io/managed-by" := "cloudflare-session-operator"]> labels in
            let annotations := default ∅ (TemplateAnnotations template) in
            let annotations := <[podSessionLabelKey := sessionID]> annotations in
            let pod :=
              {| PodMeta :=
                   {| Name := podName;
                      Namespace := Namespace (Meta binding);
                      Generation := 0;
                      DeletionTimestamp := None;
                      Finalizers := [];
                      Labels := Some labels;
                      Annotations := Some annotations;
                      OwnerReferences := [] |};
                 PodSpec_ := TemplateSpec template;
                 PodStatus_ := {| PodPhase := ""; PodConditions := []; PodIP := "" |} |} in
            match SetControllerReference binding pod (rScheme r) with
            | Err err => mret (Err err)
            | Ok pod =>
                created ← call (Create (rClient r) pod) (CCreate pod);
                match created with
                | Err err => mret (Err err)
                | Ok pod =>
                    _ ← recordEvent binding EventTypeNormal "PodCreated"
                          ("Created pod " +:+ Name (PodMeta pod) +:+ " for session "
                           +:+ sessionID);
                    mret (Ok pod)
                end
            end
        end
  end.

Definition reconcileActive (binding : SessionBinding)
  : M W (SessionBinding * (Result * option error)) :=
  if bool_decide (SessionID (Spec binding) = "") then
    let err := errorString "spec.sessionID must be provided" in
    _ ← logError err "invalid SessionBinding spec";
    binding ← setBindingCondition binding ConditionSessionDiscovered ConditionFalse
                "InvalidSpec" (Error err);
    let binding := setPhase SessionBindingPhaseError binding in
    mret (binding, (Result_zero, None))
  else
    '(sessionExists, sessionErr) ←
      call (CF_EnsureSession (CFClient r) (SessionID (Spec binding)))
           (CEnsureSession (SessionID (Spec binding)));
    match sessionErr with
    | Some sessionErr =>
        _ ← logError sessionErr "failed to verify Cloudflare session";
        binding ← setBindingCondition binding ConditionSessionDiscovered ConditionUnknown
                    "CloudflareError" (Error sessionErr);
        let binding := setPhase SessionBindingPhaseError binding in
        mret (binding, (Result_after Minute, None))
    | None =>
        if negb sessionExists then
          _ ← logInfo "Cloudflare session missing; marking binding expired";
          binding ← setBindingCondition binding ConditionSessionDiscovered ConditionFalse
                      "NotFound" "Cloudflare session not found";
          let binding := setPhase SessionBindingPhaseExpired binding in
          mret (binding, (Result_zero, None))
        else
          binding ← setBindingCondition binding ConditionSessionDiscovered ConditionTrue
                      "SessionActive" "Cloudflare session is active";
          ensured ← ensureSessionPod binding;
          match ensured with
          | Err err =>
              let binding := setPhase SessionBindingPhaseError binding in
              mret (binding, (Result_zero, Some err))
          | Ok pod =>
              if negb (isPodReady pod) then
                binding ← setBindingCondition binding ConditionPodReady ConditionFalse
                            "WaitingForReadiness" "Session pod not ready yet";
                let binding := setPhase SessionBindingPhasePending binding in
                let binding :=
                  set_Status (set_BoundPod (Name (PodMeta pod)) (Status binding)) binding in
                let binding := set_Status (set_RouteEndpoint "" (Status binding)) binding in
                mret (binding, (Result_after (10 * Second), None))
              else
                binding ← setBindingCondition binding ConditionPodReady ConditionTrue
                            "PodReady" "Session pod ready";
                let endpoint := podEndpoint pod in
                if bool_decide (endpoint = "") then
                  binding ← setBindingCondition binding ConditionRouteConfigured
                              ConditionFalse "PodEndpointMissing"
                              "Pod ready but lacks PodIP/port";
                  let binding := setPhase SessionBindingPhaseError binding in
                  mret (binding, (Result_after (5 * Second), None))
                else
                  routeErr ←
                    call (CF_EnsureRoute (CFClient r) (SessionID (Spec binding)) endpoint)
                         (CEnsureRoute (SessionID (Spec binding)) endpoint);
                  match routeErr with
                  | Some err =>
                      _ ← logError err "failed to configure Cloudflare route";
                      binding ← setBindingCondition binding ConditionRouteConfigured
                                  ConditionFalse "CloudflareError" (Error err);
                      let binding := setPhase SessionBindingPhaseError binding in
                      mret (binding, (Result_after Minute, None))
                  | None =>
                      let binding := setPhase SessionBindingPhaseBound binding in
                      let binding :=
                        set_Status (set_BoundPod (Name (PodMeta pod)) (Status binding))
                                   binding in
                      let binding :=
                        set_Status (set_RouteEndpoint endpoint (Status binding)) binding in
                      binding ← setBindingCondition binding ConditionRouteConfigured
                                  ConditionTrue "RouteConfigured"
                                  "Cloudflare route configured";
                      mret (binding, (Result_zero, None))
                  end
          end
    end.

(** The pod step of [cleanupResources]: its error, if it returns one. *)
Definition cleanupPod (binding : SessionBinding) : M W (option error) :=
  if bool_decide (BoundPod (Status binding) ≠ "") then
    let podKey :=
      {| NNamespace := Namespace (Meta binding); NName := BoundPod (Status binding) |} in
    got ← call (Get_Pod (rClient r) podKey) (CGetPod podKey);
    match got with
    | Ok pod =>
        err ← call (Delete (rClient r) pod) (CDelete pod);
        match err with
        | Some err => if negb (IsNotFound err) then mret (Some err) else mret None
        | None => mret None
        end
    | Err _ => mret None
    end
  else mret None.

(** The route step of [cleanupResources]. *)
Definition cleanupRoute (binding : SessionBinding) : M W (option error) :=
  if bool_decide (SessionID (Spec binding) ≠ "") then
    err ← call (CF_DeleteRoute (CFClient r) (SessionID (Spec binding)))
               (CDeleteRoute (SessionID (Spec binding)));
    match err with
    | Some err =>
        _ ← logError err "failed to delete Cloudflare route during cleanup";
        mret (Some err)
    | None => mret None
    end
  else mret None.

Definition cleanupResources (binding : SessionBinding) : M W (option error) :=
  podErr ← cleanupPod binding;
  match podErr with
  | Some err => mret (Some err)
  | None =>
      routeErr ← cleanupRoute binding;
      match routeErr with
      | Some err => mret (Some err)
      | None =>
          _ ← recordEvent binding EventTypeNormal "CleanedUp"
                "Removed Cloudflare route and session pod";
          mret None
      end
  end.

Definition handleDeletion (binding : SessionBinding) : M W (Result * option error) :=
  if negb (ContainsFinalizer binding sessionBindingFinalizer) then
    mret (Result_zero, None)
  else
    err ← cleanupResources binding;
    match err with
    | Some err => mret (Result_zero, Some err)
    | None =>
        let binding := RemoveFinalizer binding sessionBindingFinalizer in
        updated ← call (Update (rClient r) binding) (CUpdate binding);
        match updated with
        | Err err => mret (Result_zero, Some err)
        | Ok _ => mret (Result_zero, None)
        end
    end.

Definition patchStatus (binding : SessionBinding) : M W (option error) :=
  let key := {| NNamespace := Namespace (Meta binding); NName := Name (Meta binding) |} in
  got ← call (Get_SessionBinding (rClient r) key) (CGetBinding key);
  match got with
  | Err err => mret (Some err)
  | Ok current =>
      if bool_decide (Status current = Status binding) then mret None
      else
        let current := set_Status (Status binding) current in
        updated ← call (Status_Update (rClient r) current) (CStatusUpdate current);
        mret (result_err updated)
  end.

(** Lines 81-90 of [Reconcile]: stamp, active reconcile, status write-back. *)
Definition Reconcile_status_pass (binding : SessionBinding)
  : M W (Result * option error) :=
  let binding :=
    set_Status (set_ObservedGeneration (Generation (Meta binding)) (Status binding))
               binding in
  now ← call (Now (rClock r)) CClockNow;
  let binding := set_Status (set_LastReconcileTime (Some now) (Status binding)) binding in
  '(binding, (result, reconcileErr)) ← reconcileActive binding;
  statusErr ← patchStatus binding;
  match reconcileErr with
  | Some reconcileErr => mret (result, Some reconcileErr)
  | None => mret (result, statusErr)
  end.

Definition Reconcile (req : NamespacedName) : M W (Result * option error) :=
  got ← call (Get_SessionBinding (rClient r) req) (CGetBinding req);
  match got with
  | Err err => mret (Result_zero, IgnoreNotFound err)
  | Ok binding =>
      if negb (TimePtr_IsZero (DeletionTimestamp (Meta binding))) then
        handleDeletion binding
      else if negb (ContainsFinalizer binding sessionBindingFinalizer) then
        let binding := AddFinalizer binding sessionBindingFinalizer in
        updated ← call (Update (rClient r) binding) (CUpdate binding);
        match updated with
        | Err err => mret (Result_zero, Some err)
        | Ok binding => Reconcile_status_pass binding
        end
      else Reconcile_status_pass binding
  end.

End Controller.


(** ** An in-memory cluster and a fixed edge

    The environment used to run the reconciler on concrete inputs: an
    apiserver that stores objects by namespace and name, with the status
    subresource enabled for bindings, and whose calls can be made to fail
    with a transport fault chosen per call; an edge whose answers are a fixed
    function of the arguments; clocks that stand still. *)

Module fake.

Record Cluster := {
  bindings : list SessionBinding;
  pods : list Pod;
  deployments : list Deployment;
}.

(** A transport fault: never NotFound, never AlreadyExists. *)
Inductive Fault :=
| FaultTimeout
| FaultUnavailable
| FaultConflict.

Definition fault_error (f : Fault) : error :=
  match f with
  | FaultTimeout => StatusError StatusReasonTimeout "request timed out"
  | FaultUnavailable => StatusError StatusReasonServiceUnavailable "apiserver unavailable"
  | FaultConflict => StatusError StatusReasonConflict "the object has been modified"
  end.

Record Faults := {
  failGetBinding : NamespacedName → option Fault;
  failGetPod : NamespacedName → option Fault;
  failGetDeployment : NamespacedName → option Fault;
  failUpdate : SessionBinding → option Fault;
  failCreate : Pod → option Fault;
  failDelete : Pod → option Fault;
  failStatusUpdate : SessionBinding → option Fault;
}.

Definition noFaults : Faults :=
  {| failGetBinding _ := None; failGetPod _ := None; failGetDeployment _ := None;
     failUpdate _ := None; failCreate _ := None; failDelete _ := None;
     failStatusUpdate _ := None |}.

Record Edge := {
  verifySession : string → bool * option error;
  ensureRoute : string → string → option error;
  retractRoute : string → option error;
}.

Definition metaKey (m : ObjectMeta) : NamespacedName :=
  {| NNamespace := Namespace m; NName := Name m |}.
Definition bindingKey (b : SessionBinding) : NamespacedName := metaKey (Meta b).
Definition podKey (p : Pod) : NamespacedName := metaKey (PodMeta p).
Definition deploymentKey (d : Deployment) : NamespacedName := metaKey (DeploymentMeta d).

Section Store.

Context {A : Type}.
Variable key : A → NamespacedName.

Fixpoint lookup (k : NamespacedName) (l : list A) : option A :=
  match l with
  | [] => None
  | o :: rest => if bool_decide (key o = k) then Some o else lookup k rest
  end.

Fixpoint replace (o' : A) (l : list A) : list A :=
  match l with
  | [] => []
  | o :: rest =>
      if bool_decide (key o = key o') then o' :: replace o' rest
      else o :: replace o' rest
  end.

Fixpoint remove (k : NamespacedName) (l : list A) : list A :=
  match l with
  | [] => []
  | o :: rest =>
      if bool_decide (key o = k) then remove k rest else o :: remove k rest
  end.

Definition get (fault : option Fault) (k : NamespacedName) (l : list A) : result A :=
  match fault with
  | Some f => Err (fault_error f)
  | None =>
      match lookup k l with
      | Some o => Ok o
      | None => Err (StatusError StatusReasonNotFound "not found")
      end
  end.

End Store.

Definition set_bindings (bs : list SessionBinding) (c : Cluster) : Cluster :=
  {| bindings := bs; pods := pods c; deployments := deployments c |}.
Definition set_pods (ps : list Pod) (c : Cluster) : Cluster :=
  {| bindings := bindings c; pods := ps; deployments := deployments c |}.

(** A write to the main resource keeps the stored status; an object under
    deletion whose last finalizer is removed disappears. *)
Definition update (faults : Faults) (b : SessionBinding) (c : Cluster)
  : result SessionBinding * Cluster :=
  match failUpdate faults b with
  | Some f => (Err (fault_error f), c)
  | None =>
      match lookup bindingKey (bindingKey b) (bindings c) with
      | None => (Err (StatusError StatusReasonNotFound "not found"), c)
      | Some old =>
          let stored := set_Status (Status old) b in
          if negb (TimePtr_IsZero (DeletionTimestamp (Meta stored)))
             && bool_decide (Finalizers (Meta stored) = [])
          then (Ok stored, set_bindings (remove bindingKey (bindingKey b) (bindings c)) c)
          else (Ok stored, set_bindings (replace bindingKey stored (bindings c)) c)
      end
  end.

(** What the store keeps of a [metav1.Time].  The object travels to the
    store in its serialised form, where an instant is written in RFC 3339
    with whole seconds: the part of a second does not survive a write.  The
    zero instant is written as [null], which reads back as the zero instant
    in a value and as [nil] in a pointer. *)
Definition storedTime (t : Time) : Time := t / Second * Second.

Definition storedTimePtr (t : option Time) : option Time :=
  match t with
  | Some t => if Time_IsZero t then None else Some (storedTime t)
  | None => None
  end.

Definition storedCondition (c : Condition) : Condition :=
  {| CType := CType c; CStatus := CStatus c;
     CObservedGeneration := CObservedGeneration c;
     CLastTransitionTime := storedTime (CLastTransitionTime c);
     CReason := CReason c; CMessage := CMessage c |}.

(** The status as the store keeps it. *)
Definition storedForm (s : SessionBindingStatus) : SessionBindingStatus :=
  {| Phase := Phase s; BoundPod := BoundPod s; RouteEndpoint := RouteEndpoint s;
     ObservedGeneration := ObservedGeneration s;
     Conditions := storedCondition <$> Conditions s;
     LastReconcileTime := storedTimePtr (LastReconcileTime s) |}.

(** A write to the status subresource keeps the stored metadata and spec,
    and stores the status in its stored form. *)
Definition statusUpdate (faults : Faults) (b : SessionBinding) (c : Cluster)
  : result SessionBinding * Cluster :=
  match failStatusUpdate faults b with
  | Some f => (Err (fault_error f), c)
  | None =>
      match lookup bindingKey (bindingKey b) (bindings c) with
      | None => (Err (StatusError StatusReasonNotFound "not found"), c)
      | Some old =>
          let stored := set_Status (storedForm (Status b)) old in
          (Ok stored, set_bindings (replace bindingKey stored (bindings c)) c)
      end
  end.

Definition create (faults : Faults) (p : Pod) (c : Cluster) : result Pod * Cluster :=
  match failCreate faults p with
  | Some f => (Err (fault_error f), c)
  | None =>
      match lookup podKey (podKey p) (pods c) with
      | Some _ => (Err (StatusError StatusReasonAlreadyExists "already exists"), c)
      | None => (Ok p, set_pods (pods c ++ [p]) c)
      end
  end.

Definition delete (faults : Faults) (p : Pod) (c : Cluster) : option error * Cluster :=
  match failDelete faults p with
  | Some f => (Some (fault_error f), c)
  | None =>
      match lookup podKey (podKey p) (pods c) with
      | None => (Some (StatusError StatusReasonNotFound "not found"), c)
      | Some _ => (None, set_pods (remove podKey (podKey p) (pods c)) c)
      end
  end.

Definition client (faults : Faults) : Client Cluster :=
  {| Get_SessionBinding k c := (get bindingKey (failGetBinding faults k) k (bindings c), c);
     Get_Pod k c := (get podKey (failGetPod faults k) k (pods c), c);
     Get_Deployment k c :=
       (get deploymentKey (failGetDeployment faults k) k (deployments c), c);
     Update := update faults;
     Create := create faults;
     Delete := delete faults;
     Status_Update := statusUpdate faults |}.

Definition edgeClient (e : Edge) : CloudflareClient Cluster :=
  {| CF_EnsureSession sessionID c := (verifySession e sessionID, c);
     CF_EnsureRoute sessionID endpoint c := (ensureRoute e sessionID endpoint, c);
     CF_DeleteRoute sessionID c := (retractRoute e sessionID, c) |}.

(** The reconciler wired to the in-memory cluster, a fixed edge, an injected
    clock standing at [clock] and a process clock standing at [wall]. *)
Definition reconciler (faults : Faults) (e : Edge) (scheme : Scheme)
    (clock wall : Time) : SessionBindingReconciler Cluster :=
  {| rClient := client faults;
     rScheme := scheme;
     CFClient := edgeClient e;
     Recorder := {| Event _ _ _ _ c := c |};
     rClock := {| Now c := (clock, c) |};
     time_Now c := (wall, c) |}.

(** The status the cluster holds for a binding, if the binding exists. *)
Definition storedStatus (k : NamespacedName) (c : Cluster) : option SessionBindingStatus :=
  Status <$> lookup bindingKey k (bindings c).

End fake.

(** [n] further invocations of [Reconcile] on the state an invocation left. *)
Fixpoint Reconcile_again {W} (r : SessionBindingReconciler W) (req : NamespacedName)
    (n : nat) (w : W) : W :=
  match n with
  | O => w
  | S n => Reconcile_again r req n (world_after (Reconcile r req) w)
  end.

(** ** Concrete objects used in the examples *)

Module examples.

Definition meta (ns name : string) : ObjectMeta :=
  {| Name := name; Namespace := ns; Generation := 1; DeletionTimestamp := None;
     Finalizers := []; Labels := None; Annotations := None; OwnerReferences := [] |}.

Definition emptyStatus : SessionBindingStatus :=
  {| Phase := ""; BoundPod := ""; RouteEndpoint := ""; ObservedGeneration := 0;
     Conditions := []; LastReconcileTime := None |}.

(** [{sessionID: "s1", targetDeployment: "web"}] in namespace [ns], freshly
    created: no finalizer, empty status. *)
Definition binding_s1 : SessionBinding :=
  {| Meta := meta "ns" "b1";
     Spec := {| SessionID := "s1"; UserID := ""; TargetDeployment := "web";
                TTLSeconds := None |};
     Status := emptyStatus |}.

Definition req_b1 : NamespacedName := {| NNamespace := "ns"; NName := "b1" |}.

Definition web : Deployment :=
  {| DeploymentMeta := meta "ns" "web";
     Template :=
       {| TemplateLabels := None; TemplateAnnotations := None;
          TemplateSpec :=
            {| Containers :=
                 [ {| ContainerName := "app"; Ports := [ {| ContainerPort_ := 8080 |} ] |} ]
            |} |} |}.

(** A ready pod whose first container declares no port and whose second
    container declares port 9090. *)
Definition sidecar_first_pod : Pod :=
  {| PodMeta := meta "ns" "session-s1";
     PodSpec_ :=
       {| Containers :=
            [ {| ContainerName := "init-proxy"; Ports := [] |};
              {| ContainerName := "app"; Ports := [ {| ContainerPort_ := 9090 |} ] |} ] |};
     PodStatus_ :=
       {| PodPhase := PodRunning;
          PodConditions := [ {| PCType := PodReady; PCStatus := corev1.ConditionTrue |} ];
          PodIP := "10.0.0.7" |} |}.

Definition scheme : Scheme := {| SessionBindingKind := Some "SessionBinding" |}.

(** The edge of the happy path: every session exists, every call succeeds. *)
Definition edge_ok : fake.Edge :=
  {| fake.verifySession _ := (true, None);
     fake.ensureRoute _ _ := None;
     fake.retractRoute _ := None |}.

(** A cluster holding the fresh binding and the deployment [web]. *)
Definition cluster_fresh : fake.Cluster :=
  {| fake.bindings := [binding_s1]; fake.pods := []; fake.deployments := [web] |}.

(** The binding in phase Bound, carrying the finalizer, marked for deletion. *)
Definition binding_deleting : SessionBinding :=
  {| Meta :=
       {| Name := "b1"; Namespace := "ns"; Generation := 1;
          DeletionTimestamp := Some 1700;
          Finalizers := [sessionBindingFinalizer];
          Labels := None; Annotations := None; OwnerReferences := [] |};
     Spec := Spec binding_s1;
     Status :=
       {| Phase := SessionBindingPhaseBound; BoundPod := "session-s1";
          RouteEndpoint := "10.0.0.7:9090"; ObservedGeneration := 1;
          Conditions := []; LastReconcileTime := Some 1600 |} |}.

Definition cluster_deleting : fake.Cluster :=
  {| fake.bindings := [binding_deleting]; fake.pods := [sidecar_first_pod];
     fake.deployments := [web] |}.

(** Pod lookups time out; everything else works. *)
Definition pod_lookup_times_out : fake.Faults :=
  {| fake.failGetBinding _ := None;
     fake.failGetPod _ := Some fake.FaultTimeout;
     fake.failGetDeployment _ := None;
     fake.failUpdate _ := None; fake.failCreate _ := None; fake.failDelete _ := None;
     fake.failStatusUpdate _ := None |}.

(** [{sessionID: "", targetDeployment: "web"}], finalizer already installed. *)
Definition binding_invalid : SessionBinding :=
  {| Meta :=
       {| Name := "b1"; Namespace := "ns"; Generation := 1; DeletionTimestamp := None;
          Finalizers := [sessionBindingFinalizer];
          Labels := None; Annotations := None; OwnerReferences := [] |};
     Spec := {| SessionID := ""; UserID := ""; TargetDeployment := "web";
                TTLSeconds := None |};
     Status := emptyStatus |}.

(** The binding marked for deletion by a user before the operator ever saw
    it: no finalizer. *)
Definition binding_deleting_unseen : SessionBinding :=
  {| Meta :=
       {| Name := "b1"; Namespace := "ns"; Generation := 1;
          DeletionTimestamp := Some 1700; Finalizers := [];
          Labels := None; Annotations := None; OwnerReferences := [] |};
     Spec := Spec binding_s1;
     Status := emptyStatus |}.

(** An edge whose route retraction fails. *)
Definition edge_retract_fails : fake.Edge :=
  {| fake.verifySession _ := (true, None);
     fake.ensureRoute _ _ := None;
     fake.retractRoute _ := Some (errorString "edge unavailable") |}.

(** The reconciler on the in-memory cluster with no faults and the happy
    edge, clocks standing at 1000 and 2000. *)
Definition reconciler_ok : SessionBindingReconciler fake.Cluster :=
  fake.reconciler fake.noFaults edge_ok scheme 1000 2000.

End examples.

(** ** Vocabulary of the statements *)

(** [port] is the port [podEndpoint] selects among [containers]: the first
    port of the first container that declares at least one, or 80 when no
    container declares any. *)
Definition selected_port (containers : list Container) (port : Z) : Prop :=
  (∃ (i : nat) (c : Container) (p : ContainerPort),
      containers !! i = Some c ∧ head (Ports c) = Some p ∧
      (∀ (j : nat) (c' : Container),
          (j < i)%nat → containers !! j = Some c' → Ports c' = []) ∧
      port = ContainerPort_ p)
  ∨ ((∀ c : Container, c ∈ containers → Ports c = []) ∧ port = 80).

(** The integration is disabled: at least one credential is empty. *)
Definition integration_disabled (c : cloudflare.APIClient) : Prop :=
  cloudflare.APIToken c = "" ∨ cloudflare.AccountID c = "".

(** The client [c] with both credentials blanked. *)
Definition without_credentials (c : cloudflare.APIClient) : cloudflare.APIClient :=
  {| cloudflare.HTTPTimeout := cloudflare.HTTPTimeout c;
     cloudflare.AccountID := "";
     cloudflare.APIToken := "" |}.

(** The condition of type [ty] reads [status], [reason], [message]. *)
Definition condition_is (cs : list Condition) (ty status reason message : string) : Prop :=
  ∃ c, FindStatusCondition cs ty = Some c ∧
       CStatus c = status ∧ CReason c = reason ∧ CMessage c = message ∧
       CObservedGeneration c = 0.

(** [pod] was handed to the reconciler by the cluster during the calls [d]:
    returned by a lookup or by a creation. *)
Definition observed_pod (d : list Call) (pod : Pod) : Prop :=
  (∃ key, CGetPod key (Ok pod) ∈ d) ∨ (∃ obj, CCreate obj (Ok pod) ∈ d).

(** The calls an invalid spec may cause: no edge call, no pod call. *)
Definition no_edge_no_pod (c : Call) : Prop :=
  is_edge_call c = false ∧ is_pod_call c = false.

(** [err] is nil or the error of a failed read or status write in [d]. *)
Definition error_from_status_write_back (err : option error) (d : list Call) : Prop :=
  match err with
  | None => True
  | Some e =>
      (∃ key, CGetBinding key (Err e) ∈ d) ∨ (∃ obj, CStatusUpdate obj (Err e) ∈ d)
  end.

Definition is_clock_read (c : Call) : bool :=
  match c with
  | CClockNow _ => true
  | _ => false
  end.

(** The finalizer-install step as the specification words it: the invocation
    succeeds, asks for an immediate requeue, and contains neither the stamp
    (no clock read), nor the active reconcile (no edge call, no pod call),
    nor the status write-back (no status write). *)
Definition returns_after_finalizer_install {W}
    (out : (Result * option error) * W * list Call) : Prop :=
  out.1.1.2 = None ∧ Requeue out.1.1.1 = true ∧
  Forall (λ c, is_clock_read c = false ∧ is_edge_call c = false ∧
               is_pod_call c = false ∧ is_status_write c = false) out.2.

(** The binding as stamped at lines 81-83 of [Reconcile]. *)
Definition stamped (now : Time) (b : SessionBinding) : SessionBinding :=
  set_Status
    (set_LastReconcileTime (Some now)
       (set_ObservedGeneration (Generation (Meta b)) (Status b))) b.

(** The status [s'] reads as [s] does, the instants in it aside: same phase,
    bound pod and endpoint, and every condition of [s] is in [s'] with the
    same status, reason and message. *)
Definition same_but_times (s' s : SessionBindingStatus) : Prop :=
  Phase s' = Phase s ∧ BoundPod s' = BoundPod s ∧
  RouteEndpoint s' = RouteEndpoint s ∧
  ∀ ty status reason message,
    condition_is (Conditions s) ty status reason message →
    condition_is (Conditions s') ty status reason message.

(** The binding [b'] is settled on the cluster [c] for the reconciler [r]:
    stamped with the clock's reading, active reconcile maps it to itself,
    without error and without touching [c]; and the stamp either leaves its
    status as it is, or leaves it as it is once stored, [b'] being what the
    cluster holds under its name. *)
Definition settled (r : SessionBindingReconciler fake.Cluster) (clock : Time)
    (b' : SessionBinding) (c : fake.Cluster) : Prop :=
  (∃ res, (reconcileActive r (stamped clock b') c).1 = (stamped clock b', (res, None), c)) ∧
  (Status (stamped clock b') = Status b' ∨
   (fake.storedForm (Status (stamped clock b')) = Status b' ∧
    fake.replace fake.bindingKey b' (fake.bindings c) = fake.bindings c)).

(** [pod] is the pod [ensureSessionPod] builds for [binding] from the
    deployment [dep], with [kind] the kind the scheme knows the binding by. *)
Definition materialised_from (binding : SessionBinding) (dep : Deployment)
    (kind : string) (pod : Pod) : Prop :=
  Name (PodMeta pod) = "session-" +:+ SessionID (Spec binding) ∧
  Namespace (PodMeta pod) = Namespace (Meta binding) ∧
  PodSpec_ pod = TemplateSpec (Template dep) ∧
  PodStatus_ pod = {| PodPhase := ""; PodConditions := []; PodIP := "" |} ∧
  OwnerReferences (PodMeta pod) =
    [ {| OwnerKind := kind; OwnerName := Name (Meta binding);
         OwnerController := true |} ] ∧
  (∃ labels : gmap string string,
     Labels (PodMeta pod) = Some labels ∧
     labels !! podSessionLabelKey = Some (SessionID (Spec binding)) ∧
     labels !! "app.kubernetes.io/managed-by" = Some "cloudflare-session-operator" ∧
     ∀ k : string, k ≠ podSessionLabelKey → k ≠ "app.kubernetes.io/managed-by" →
       labels !! k = default ∅ (TemplateLabels (Template dep)) !! k) ∧
  (∃ annotations : gmap string string,
     Annotations (PodMeta pod) = Some annotations ∧
     annotations !! podSessionLabelKey = Some (SessionID (Spec binding)) ∧
     ∀ k : string, k ≠ podSessionLabelKey →
       annotations !! k = default ∅ (TemplateAnnotations (Template dep)) !! k).

(** A call to the cluster API, read or write. *)
Definition is_cluster_call (c : Call) : bool :=
  match c with
  | CGetBinding _ _ | CGetPod _ _ | CGetDeployment _ _
  | CUpdate _ _ | CCreate _ _ | CDelete _ _ | CStatusUpdate _ _ => true
  | _ => false
  end.

(** The three condition types the reconciler maintains. *)
Definition reconciler_condition_types : list string :=
  [ConditionSessionDiscovered; ConditionPodReady; ConditionRouteConfigured].

(** [err] is the error of a failed step of the pod ensure recorded in [d],
    or of the owner-reference setup for an owner with the metadata [m]. *)
Definition pod_ensure_error (scheme : Scheme) (m : ObjectMeta) (d : list Call)
    (err : error) : Prop :=
  (∃ key, CGetPod key (Err err) ∈ d) ∨
  (∃ key, CGetDeployment key (Err err) ∈ d) ∨
  (∃ obj, CCreate obj (Err err) ∈ d) ∨
  (∃ owner pod, Meta owner = m ∧ SetControllerReference owner pod scheme = Err err).

(** The calls [d_pod] are a pod step of the teardown of [binding] that ended
    without error: no pod is bound and nothing was called; or the lookup of
    the bound pod failed, with NotFound or with any other error, and nothing
    was deleted; or the pod was found and its deletion succeeded or answered
    NotFound. *)
Definition pod_step_without_error (binding : SessionBinding) (d_pod : list Call) : Prop :=
  let podKey :=
    {| NNamespace := Namespace (Meta binding); NName := BoundPod (Status binding) |} in
  (BoundPod (Status binding) = "" ∧ d_pod = []) ∨
  (BoundPod (Status binding) ≠ "" ∧
   ((∃ err, d_pod = [CGetPod podKey (Err err)]) ∨
    (∃ pod, d_pod = [CGetPod podKey (Ok pod); CDelete pod None]) ∨
    (∃ pod err, d_pod = [CGetPod podKey (Ok pod); CDelete pod (Some err)] ∧
                IsNotFound err = true))).

(** The calls a teardown of [binding] may make, given the whole trace [d]:
    a lookup of the bound pod, the deletion of a pod that lookup returned,
    the retraction of the binding's own non-empty session, the log of a
    failed retraction, the CleanedUp event, and the write of the binding
    with the finalizer removed. *)
Definition teardown_call (binding : SessionBinding) (d : list Call) (c : Call) : Prop :=
  match c with
  | CGetPod key _ =>
      key = {| NNamespace := Namespace (Meta binding);
               NName := BoundPod (Status binding) |} ∧
      BoundPod (Status binding) ≠ ""
  | CDelete pod _ => ∃ key, CGetPod key (Ok pod) ∈ d
  | CDeleteRoute sessionID _ =>
      sessionID = SessionID (Spec binding) ∧ sessionID ≠ ""
  | CLogError err _ => ∃ sessionID, CDeleteRoute sessionID (Some err) ∈ d
  | CEvent _ reason _ => reason = "CleanedUp"
  | CUpdate obj _ => obj = RemoveFinalizer binding sessionBindingFinalizer
  | _ => False
  end.

(** The reconciler on the in-memory cluster wired to the real edge client. *)
Definition reconciler_with_APIClient (faults : fake.Faults) (c : cloudflare.APIClient)
    (scheme : Scheme) (clock wall : Time) : SessionBindingReconciler fake.Cluster :=
  {| rClient := fake.client faults;
     rScheme := scheme;
     CFClient := APIClient_Client c;
     Recorder := {| Event _ _ _ _ w := w |};
     rClock := {| Now w := (clock, w) |};
     time_Now w := (wall, w) |}.

(** Further concrete inputs: a cluster where the session pod already runs
    and is ready, a cluster without the target deployment, and an edge that
    no longer knows any session. *)
Definition example_cluster_ready : fake.Cluster :=
  {| fake.bindings := [examples.binding_s1];
     fake.pods := [examples.sidecar_first_pod];
     fake.deployments := [examples.web] |}.

Definition example_cluster_without_deployment : fake.Cluster :=
  {| fake.bindings := [examples.binding_s1]; fake.pods := []; fake.deployments := [] |}.

Definition example_edge_session_gone : fake.Edge :=
  {| fake.verifySession _ := (false, None);
     fake.ensureRoute _ _ := None;
     fake.retractRoute _ := None |}.

(** The error a call returned, if it returned one. *)
Definition call_error (c : Call) : option error :=
  match c with
  | CGetBinding _ ret | CUpdate _ ret | CStatusUpdate _ ret => result_err ret
  | CGetPod _ ret | CCreate _ ret => result_err ret
  | CGetDeployment _ ret => result_err ret
  | CDelete _ ret | CEnsureRoute _ _ ret | CDeleteRoute _ ret => ret
  | CEnsureSession _ ret => ret.2
  | _ => None
  end.

(** * Properties *)

(** ** The edge client *)

Lemma disabled_credentials_test (c : cloudflare.APIClient) :
  integration_disabled c →
  bool_decide (cloudflare.APIToken c = "") || bool_decide (cloudflare.AccountID c = "") = true.
Proof.
  intros [H | H]; rewrite H; simpl.
  - reflexivity.
  - apply orb_true_r.
Qed.

(** C7. For the real edge client, whenever at least one of the account ID and
    the API token is empty, [EnsureSession] answers exists = true with no
    error for every non-empty session ID, [EnsureRoute] (non-empty session ID
    and endpoint) and [DeleteRoute] succeed, none of them sends a request, and
    on every input the three calls answer exactly as the client with both
    credentials empty does. *)
Theorem APIClient_disabled_when_a_credential_is_empty (c : cloudflare.APIClient) :
  integration_disabled c →
  (∀ sessionID, sessionID ≠ "" →
     cloudflare.EnsureSession c sessionID = ((true, None), [])) ∧
  (∀ sessionID endpoint, sessionID ≠ "" → endpoint ≠ "" →
     cloudflare.EnsureRoute c sessionID endpoint = (None, [])) ∧
  (∀ sessionID, cloudflare.DeleteRoute c sessionID = (None, [])) ∧
  (∀ sessionID endpoint,
     cloudflare.EnsureSession c sessionID
       = cloudflare.EnsureSession (without_credentials c) sessionID ∧
     cloudflare.EnsureRoute c sessionID endpoint
       = cloudflare.EnsureRoute (without_credentials c) sessionID endpoint ∧
     cloudflare.DeleteRoute c sessionID
       = cloudflare.DeleteRoute (without_credentials c) sessionID).
Proof.
  intros Hdis. pose proof (disabled_credentials_test c Hdis) as Hc.
  unfold cloudflare.EnsureSession, cloudflare.EnsureRoute, cloudflare.DeleteRoute.
  rewrite Hc. simpl.
  repeat split; intros; repeat case_bool_decide; congruence.
Qed.

(** C7 at a client with the account ID set and the token empty. *)
Lemma APIClient_disabled_when_a_credential_is_empty_witness :
  cloudflare.EnsureSession (cloudflare.NewClientFromEnv "acct-1" "") "s1"
    = ((true, None), []).
Proof.
  refine (proj1 (APIClient_disabled_when_a_credential_is_empty
                   (cloudflare.NewClientFromEnv "acct-1" "") _) "s1" _).
  - left. reflexivity.
  - discriminate.
Defined.

(** C10. [EnsureSession] answers (false, error) for the empty session ID
    whatever the credentials are: the empty-argument check comes first, so a
    disabled integration never reports the empty session as existing. *)
Theorem EnsureSession_rejects_empty_sessionID (c : cloudflare.APIClient) :
  cloudflare.EnsureSession c ""
    = ((false, Some (errorString "sessionID is empty")), []).
Proof. reflexivity. Qed.

(** ** Endpoint derivation *)

Lemma podEndpoint_port_selected (containers : list Container) :
  selected_port containers (podEndpoint_port 80 containers).
Proof.
  induction containers as [| c rest IH]; simpl.
  - right. split; [| reflexivity]. intros c Hc. inversion Hc.
  - destruct (Ports c) as [| p ps] eqn:Hports.
    + destruct IH as [(i & c' & p & Hi & Hp & Hbefore & Hport) | [Hnone Hport]].
      * left. exists (S i), c', p. repeat split; try assumption.
        intros [| j] c'' Hj Hlook; simpl in Hlook.
        -- congruence.
        -- apply (Hbefore j); [lia | assumption].
      * right. split; [| assumption].
        intros c' Hc'. apply elem_of_cons in Hc' as [-> | Hc']; auto.
    + left. exists 0%nat, c, p. repeat split.
      * rewrite Hports. reflexivity.
      * intros j c' Hj. lia.
Qed.

(** C2, as the code has it. For every pod, [podEndpoint] is empty when the
    pod IP is empty, and otherwise is the pod IP, a colon and the decimal
    port, where the port is the first port of the first container that
    declares at least one port, and 80 when no container declares any. *)
Theorem podEndpoint_first_declaring_container (pod : Pod) :
  ∃ port : Z,
    selected_port (Containers (PodSpec_ pod)) port ∧
    podEndpoint pod =
      if decide (PodIP (PodStatus_ pod) = "") then ""
      else PodIP (PodStatus_ pod) +:+ ":" +:+ pretty port.
Proof.
  exists (podEndpoint_port 80 (Containers (PodSpec_ pod))). split.
  - apply podEndpoint_port_selected.
  - unfold podEndpoint, Sprintf_s_colon_d.
    case_bool_decide; case_decide; congruence.
Qed.

(** C2, as stated, fails: the first container of this pod declares no port,
    the second declares 9090, and the endpoint carries 9090, not 80. *)
Lemma podEndpoint_ignores_later_containers_counterexample :
  PodIP (PodStatus_ examples.sidecar_first_pod) = "10.0.0.7" ∧
  (Ports <$> head (Containers (PodSpec_ examples.sidecar_first_pod))) = Some [] ∧
  podEndpoint_first_container_only examples.sidecar_first_pod = "10.0.0.7:80" ∧
  podEndpoint examples.sidecar_first_pod = "10.0.0.7:9090" ∧
  podEndpoint examples.sidecar_first_pod
    ≠ podEndpoint_first_container_only examples.sidecar_first_pod.
Proof.
  repeat split; try (vm_compute; reflexivity).
  vm_compute. discriminate.
Qed.

(** Where the first container declares a port, or none does, the code and the
    first-container reading agree. *)
Lemma podEndpoint_agrees_on_first_container (pod : Pod) :
  (∀ c cs, Containers (PodSpec_ pod) = c :: cs →
     Ports c ≠ [] ∨ ∀ c', c' ∈ cs → Ports c' = []) →
  podEndpoint pod = podEndpoint_first_container_only pod.
Proof.
  intros H. unfold podEndpoint, podEndpoint_first_container_only, Sprintf_s_colon_d.
  case_bool_decide; [reflexivity |].
  destruct (Containers (PodSpec_ pod)) as [| c cs]; [reflexivity |].
  simpl. destruct (Ports c) as [| p ps] eqn:Hp; [| reflexivity].
  destruct (H c cs eq_refl) as [Hne | Hnone]; [congruence |].
  do 3 f_equal. clear -Hnone.
  induction cs as [| c' cs IH]; simpl; [reflexivity |].
  rewrite (Hnone c') by (left).
  apply IH. intros c'' Hc''. apply Hnone. right. assumption.
Qed.

(** ** Symbolic execution of the reconciler monad *)

Ltac unfold_M :=
  unfold value_of, world_after, calls, recordEvent, logError, logInfo, emit, call,
    mbind, M_bind, mret, M_ret in *.

(** Split on the outcome of every call and test along the way. *)
Ltac run := repeat (case_match; simpl in *; simplify_eq); simpl in *.

(** ** Conditions *)

Lemma FindStatusCondition_type (cs : list Condition) (ty : string) (c : Condition) :
  FindStatusCondition cs ty = Some c → CType c = ty.
Proof.
  induction cs as [| c0 cs IH]; simpl; [discriminate |].
  destruct (decide (CType c0 = ty)); [intros [= <-]; assumption | exact IH].
Qed.

Lemma FindStatusCondition_append (cs : list Condition) (ty : string) (c : Condition) :
  FindStatusCondition (cs ++ [c]) ty =
    match FindStatusCondition cs ty with
    | Some c0 => Some c0
    | None => if decide (CType c = ty) then Some c else None
    end.
Proof.
  induction cs as [| c0 cs IH]; simpl; [reflexivity |].
  destruct (decide (CType c0 = ty)); [reflexivity | exact IH].
Qed.

Lemma FindStatusCondition_store (cs : list Condition) (ty ty' : string) (c' : Condition) :
  CType c' = ty →
  FindStatusCondition (storeStatusCondition cs ty c') ty' =
    if decide (ty' = ty)
    then (match FindStatusCondition cs ty with Some _ => Some c' | None => None end)
    else FindStatusCondition cs ty'.
Proof.
  intros Hty. induction cs as [| c0 cs IH]; simpl.
  - case_decide; reflexivity.
  - destruct (decide (CType c0 = ty)) as [H0 | H0]; simpl.
    + repeat case_decide; congruence.
    + rewrite IH. repeat case_decide; congruence.
Qed.

Lemma storeStatusCondition_found (cs : list Condition) (ty : string) (c : Condition) :
  FindStatusCondition cs ty = Some c → storeStatusCondition cs ty c = cs.
Proof.
  induction cs as [| c0 cs IH]; simpl; [reflexivity |].
  destruct (decide (CType c0 = ty));
    [intros [= <-]; reflexivity | intros H'; f_equal; auto].
Qed.

Section Conditions.

Context {W : Type} (r : SessionBindingReconciler W).

Lemma setCondition_sets cs ty status reason message w :
  condition_is (value_of (setCondition r cs ty status reason message) w)
               ty status reason message.
Proof.
  unfold setCondition, SetStatusCondition, condition_is. unfold_M. simpl.
  destruct (FindStatusCondition cs ty) as [c |] eqn:Hfind; run;
    eexists;
    (split;
     [ first
         [ rewrite FindStatusCondition_store
             by (simpl; eauto using FindStatusCondition_type);
           rewrite decide_True by reflexivity; rewrite Hfind; reflexivity
         | rewrite FindStatusCondition_append, Hfind; simpl;
           rewrite decide_True by reflexivity; reflexivity ]
     | repeat split; reflexivity ]).
Qed.

Lemma setCondition_other cs ty status reason message w ty' :
  ty' ≠ ty →
  FindStatusCondition (value_of (setCondition r cs ty status reason message) w) ty'
    = FindStatusCondition cs ty'.
Proof.
  intros Hne. unfold setCondition, SetStatusCondition. unfold_M. simpl.
  destruct (FindStatusCondition cs ty) as [c |] eqn:Hfind; run.
  all: try (rewrite FindStatusCondition_store by (simpl; eauto using FindStatusCondition_type);
            rewrite decide_False by assumption; reflexivity).
  all: rewrite FindStatusCondition_append; destruct (FindStatusCondition cs ty'); simpl;
       [reflexivity | rewrite decide_False by congruence; reflexivity].
Qed.

(** Setting a condition to what it already reads changes nothing and reads no
    clock. *)
Lemma setCondition_noop cs ty status reason message w :
  condition_is cs ty status reason message →
  setCondition r cs ty status reason message w = (cs, w, []).
Proof.
  intros (c & Hfind & Hs & Hr & Hm & Hg).
  unfold setCondition, SetStatusCondition. unfold_M. simpl. rewrite Hfind.
  rewrite bool_decide_false by (intros Hne; apply Hne; exact Hs). simpl.
  rewrite <- (storeStatusCondition_found cs ty c Hfind) at 2.
  do 3 f_equal. destruct c; simpl in *; congruence.
Qed.

Lemma setCondition_calls cs ty status reason message w :
  Forall (λ c, ∃ t, c = CTimeNow t) (calls (setCondition r cs ty status reason message) w).
Proof.
  unfold setCondition, SetStatusCondition. unfold_M. simpl.
  run; repeat constructor; eauto.
Qed.

(** What [setBindingCondition] leaves alone and what it establishes. *)
Lemma setBindingCondition_frame b ty status reason message w b' w' d :
  setBindingCondition r b ty status reason message w = (b', w', d) →
  Meta b' = Meta b ∧ Spec b' = Spec b ∧
  Phase (Status b') = Phase (Status b) ∧
  BoundPod (Status b') = BoundPod (Status b) ∧
  RouteEndpoint (Status b') = RouteEndpoint (Status b) ∧
  ObservedGeneration (Status b') = ObservedGeneration (Status b) ∧
  LastReconcileTime (Status b') = LastReconcileTime (Status b) ∧
  condition_is (Conditions (Status b')) ty status reason message ∧
  (∀ ty', ty' ≠ ty →
     FindStatusCondition (Conditions (Status b')) ty'
       = FindStatusCondition (Conditions (Status b)) ty') ∧
  Forall (λ c, ∃ t, c = CTimeNow t) d.
Proof.
  unfold setBindingCondition. unfold mbind, M_bind, mret, M_ret.
  pose proof (setCondition_sets (Conditions (Status b)) ty status reason message w) as Hset.
  pose proof (setCondition_calls (Conditions (Status b)) ty status reason message w) as Hcalls.
  pose proof (λ ty', setCondition_other (Conditions (Status b)) ty status reason message w ty')
    as Hother.
  unfold value_of, calls in *.
  destruct (setCondition r (Conditions (Status b)) ty status reason message w)
    as [[cs w1] d1].
  simpl in *. intros [= <- <- <-]. simpl. rewrite app_nil_r.
  repeat split; auto.
Qed.

Lemma setBindingCondition_noop b ty status reason message w :
  condition_is (Conditions (Status b)) ty status reason message →
  setBindingCondition r b ty status reason message w = (b, w, []).
Proof.
  intros Hc. unfold setBindingCondition. unfold mbind, M_bind, mret, M_ret.
  rewrite (setCondition_noop _ _ _ _ _ w Hc).
  destruct b as [m sp [ph bp re og cs lt]]. reflexivity.
Qed.

(** Where the process clock leaves the world alone, so does
    [setBindingCondition]. *)
Lemma setBindingCondition_world b ty status reason message w b' w' d :
  (∀ w0, (time_Now r w0).2 = w0) →
  setBindingCondition r b ty status reason message w = (b', w', d) → w' = w.
Proof.
  intros Hnow. unfold setBindingCondition, setCondition, SetStatusCondition.
  unfold_M. simpl. intros Hrun.
  destruct (FindStatusCondition (Conditions (Status b)) ty); run;
    try reflexivity;
    match goal with
    | H : time_Now r ?w0 = (_, ?w1) |- ?w1 = ?w0 =>
        pose proof (Hnow w0) as Hw; rewrite H in Hw; exact Hw
    end.
Qed.

End Conditions.

#[global] Opaque setBindingCondition.

(** ** Active reconcile *)

(** Case analysis on the membership of a call in a trace built from conses
    and appends. *)
Ltac elem_cases H :=
  repeat first [ apply elem_of_cons in H as [H | H]
               | apply elem_of_app in H as [H | H]
               | apply elem_of_nil in H as [] ].

(** Find a call in a trace built from conses and appends. *)
Ltac elem_find :=
  solve [ repeat first [ apply list_elem_of_here
                       | apply list_elem_of_further
                       | (apply elem_of_app; right) ] ].

Lemma TimeNow_not_status_write (d : list Call) obj ret :
  Forall (λ c, ∃ t, c = CTimeNow t) d → CStatusUpdate obj ret ∈ d → False.
Proof.
  intros H Hin. rewrite Forall_forall in H.
  destruct (H _ Hin) as [t Ht]. discriminate Ht.
Qed.

Ltac frames :=
  repeat match goal with
  | H : setBindingCondition _ _ _ _ _ _ _ = _ |- _ =>
      apply setBindingCondition_frame in H;
      destruct H as (? & ? & ? & ? & ? & ? & ? & ? & ? & ?)
  end; simpl in *.

Ltac phases :=
  unfold SessionBindingPhaseError, SessionBindingPhaseExpired,
    SessionBindingPhasePending, SessionBindingPhaseBound in *.

Lemma observed_get d1 d2 key pod : observed_pod (d1 ++ CGetPod key (Ok pod) :: d2) pod.
Proof. left. exists key. apply elem_of_app. right. left. Qed.

Lemma observed_create d1 d2 obj pod : observed_pod (d1 ++ CCreate obj (Ok pod) :: d2) pod.
Proof. right. exists obj. apply elem_of_app. right. left. Qed.

Lemma observed_cons c d pod : observed_pod d pod → observed_pod (c :: d) pod.
Proof.
  intros [[k H] | [o H]]; [left; exists k | right; exists o]; right; exact H.
Qed.

Lemma observed_app d1 d2 pod : observed_pod d2 pod → observed_pod (d1 ++ d2) pod.
Proof.
  intros [[k H] | [o H]]; [left; exists k | right; exists o];
    apply elem_of_app; right; exact H.
Qed.

Lemma TimeNow_no_edge_no_pod (d : list Call) :
  Forall (λ c, ∃ t, c = CTimeNow t) d → Forall no_edge_no_pod d.
Proof.
  intros H. eapply Forall_impl; [exact H |].
  intros c [t ->]. split; reflexivity.
Qed.

(** Every call of a trace built from conses and appends is neither an edge
    call nor a pod call. *)
Ltac forall_calls :=
  repeat first [ apply Forall_app_2
               | apply TimeNow_no_edge_no_pod; assumption
               | constructor; [split; reflexivity |]
               | constructor ].

(** C6. The status frame of active reconcile, by the phase it ends in: in
    Error or Expired, [boundPod] and [routeEndpoint] keep their prior values;
    in Pending, [boundPod] is the name of the pod the cluster returned and
    [routeEndpoint] is empty; in Bound, [boundPod] is that pod's name and
    [routeEndpoint] is the endpoint derived from it.  Active reconcile always
    ends in one of these four phases. *)
Theorem reconcileActive_status_frame {W} (r : SessionBindingReconciler W)
    (b : SessionBinding) (w : W) :
  let b' := (value_of (reconcileActive r b) w).1 in
  let d := calls (reconcileActive r b) w in
  Phase (Status b') ∈ [SessionBindingPhaseError; SessionBindingPhaseExpired;
                       SessionBindingPhasePending; SessionBindingPhaseBound] ∧
  (Phase (Status b') = SessionBindingPhaseError ∨
   Phase (Status b') = SessionBindingPhaseExpired →
     BoundPod (Status b') = BoundPod (Status b) ∧
     RouteEndpoint (Status b') = RouteEndpoint (Status b)) ∧
  (Phase (Status b') = SessionBindingPhasePending →
     ∃ pod, observed_pod d pod ∧ BoundPod (Status b') = Name (PodMeta pod) ∧
            RouteEndpoint (Status b') = "") ∧
  (Phase (Status b') = SessionBindingPhaseBound →
     ∃ pod, observed_pod d pod ∧ BoundPod (Status b') = Name (PodMeta pod) ∧
            RouteEndpoint (Status b') = podEndpoint pod).
Proof.
  unfold reconcileActive, ensureSessionPod. unfold_M.
  run.
  all: frames; phases.
  all: split; [ | split; [ | split ] ].
  all: try (rewrite !elem_of_cons;
            repeat match goal with H : Phase _ = _ |- _ => rewrite H end; tauto).
  all: try (intros [Hp | Hp]); try intros Hp;
       try match goal with
           | H : Phase (Status ?s) = _, Hp : Phase (Status ?s) = _ |- _ =>
               rewrite H in Hp
           end;
       try discriminate; try (split; congruence).
  all: eexists;
       (split; [ | split; [ reflexivity || eassumption
                          | try reflexivity; try eassumption ] ]).
  all: try (apply observed_cons; apply observed_app;
            first [ apply (observed_get [])
                  | do 2 apply observed_cons; apply (observed_create []) ]).
Qed.

(** C5. For a binding whose [spec.sessionID] is empty, active reconcile ends
    in phase Error with the SessionDiscovered condition False / InvalidSpec,
    calls neither the edge nor any pod operation, and returns the zero result
    with no error.  The status pass of [Reconcile] around it (the path of a
    binding that is not under deletion) likewise calls neither edge nor pods,
    hands exactly that status to the write-back, returns the zero result,
    and its only possible error is that of the status write-back. *)
Theorem invalid_spec_halts_without_requeue {W} (r : SessionBindingReconciler W)
    (b : SessionBinding) (w : W) :
  SessionID (Spec b) = "" →
  (let '((b', (res, err)), _, d) := reconcileActive r b w in
   Phase (Status b') = SessionBindingPhaseError ∧
   condition_is (Conditions (Status b')) ConditionSessionDiscovered ConditionFalse
     "InvalidSpec" "spec.sessionID must be provided" ∧
   Forall no_edge_no_pod d ∧
   res = Result_zero ∧ RequeueAfter res = 0 ∧ Requeue res = false ∧ err = None) ∧
  (let '((res, err), _, d) := Reconcile_status_pass r b w in
   Forall no_edge_no_pod d ∧
   (∀ obj ret, CStatusUpdate obj ret ∈ d →
      Phase (Status obj) = SessionBindingPhaseError ∧
      condition_is (Conditions (Status obj)) ConditionSessionDiscovered ConditionFalse
        "InvalidSpec" "spec.sessionID must be provided") ∧
   res = Result_zero ∧ error_from_status_write_back err d).
Proof.
  intros Hsid. split.
  - unfold reconcileActive. rewrite bool_decide_true by assumption.
    unfold_M. run. frames.
    repeat split; try assumption.
    forall_calls.
  - unfold Reconcile_status_pass, patchStatus, reconcileActive. simpl.
    rewrite bool_decide_true by assumption.
    unfold_M. run. all: frames.
    all: split; [ | split; [ | split; [reflexivity |] ] ].
    all: try (forall_calls; fail).
    all: try (intros obj ret Hin; elem_cases Hin; simplify_eq; simpl;
              try (split; [reflexivity | assumption]);
              exfalso; eapply TimeNow_not_status_write; eassumption).
    all: unfold error_from_status_write_back; repeat case_match; try exact I.
    all: repeat match goal with
                | H : result_err ?x = _ |- _ => destruct x; simpl in H; simplify_eq
                end.
    all: first [ left; eexists; elem_find | right; eexists; elem_find ].
Qed.

(** C5 at the binding [{sessionID: "", targetDeployment: "web"}]. *)
Lemma invalid_spec_halts_without_requeue_witness :
  (value_of (reconcileActive examples.reconciler_ok examples.binding_invalid)
            examples.cluster_fresh).2 = (Result_zero, None).
Proof.
  pose proof (invalid_spec_halts_without_requeue examples.reconciler_ok
                examples.binding_invalid examples.cluster_fresh eq_refl) as [H _].
  unfold value_of.
  destruct (reconcileActive examples.reconciler_ok examples.binding_invalid
              examples.cluster_fresh) as [[[b' [res err]] w'] d].
  simpl. destruct H as (_ & _ & _ & -> & _ & _ & ->). reflexivity.
Defined.

(** ** Teardown *)

Lemma RemoveFinalizer_removes (b : SessionBinding) (finalizer : string) :
  ContainsFinalizer (RemoveFinalizer b finalizer) finalizer = false.
Proof.
  unfold ContainsFinalizer, RemoveFinalizer. simpl.
  apply bool_decide_false. intros Hin.
  apply list_elem_of_filter in Hin as [Hne _]. apply Hne. reflexivity.
Qed.

Lemma AddFinalizer_adds (b : SessionBinding) (finalizer : string) :
  ContainsFinalizer (AddFinalizer b finalizer) finalizer = true.
Proof.
  unfold AddFinalizer. destruct (ContainsFinalizer b finalizer) eqn:H; [exact H |].
  unfold ContainsFinalizer. simpl. apply bool_decide_true.
  apply elem_of_app. right. left.
Qed.

(** C9. For a binding whose deletion timestamp is set and which does not
    carry the operator finalizer, the teardown returns success at once with
    no call at all, and the whole invocation consists of the load of the
    binding alone: no pod lookup or deletion, no edge retraction, no event,
    no metadata or status write; the world is as the load left it. *)
Theorem deletion_without_finalizer_is_a_no_op {W} (r : SessionBindingReconciler W)
    (req : NamespacedName) (b : SessionBinding) (w w1 : W) :
  Get_SessionBinding (rClient r) req w = (Ok b, w1) →
  TimePtr_IsZero (DeletionTimestamp (Meta b)) = false →
  ContainsFinalizer b sessionBindingFinalizer = false →
  (∀ w', handleDeletion r b w' = ((Result_zero, None), w', [])) ∧
  Reconcile r req w = ((Result_zero, None), w1, [CGetBinding req (Ok b)]).
Proof.
  intros Hget Hdel Hfin.
  assert (Hhd : ∀ w', handleDeletion r b w' = ((Result_zero, None), w', [])).
  { intros w'. unfold handleDeletion. rewrite Hfin. reflexivity. }
  split; [exact Hhd |].
  unfold Reconcile. unfold_M. rewrite Hget, Hdel. simpl. rewrite Hhd. reflexivity.
Qed.

(** C9 on the in-memory cluster. *)
Lemma deletion_without_finalizer_is_a_no_op_witness :
  Reconcile examples.reconciler_ok examples.req_b1
    {| fake.bindings := [examples.binding_deleting_unseen];
       fake.pods := [examples.sidecar_first_pod];
       fake.deployments := [examples.web] |}
  = ((Result_zero, None),
     {| fake.bindings := [examples.binding_deleting_unseen];
        fake.pods := [examples.sidecar_first_pod];
        fake.deployments := [examples.web] |},
     [CGetBinding examples.req_b1 (Ok examples.binding_deleting_unseen)]).
Proof.
  refine (proj2 (deletion_without_finalizer_is_a_no_op examples.reconciler_ok
                   examples.req_b1 examples.binding_deleting_unseen _ _ _ _ _)).
  - reflexivity.
  - reflexivity.
  - reflexivity.
Defined.

(** X20. The gate of the teardown, for a binding that carries the finalizer
    and has a non-empty [spec.sessionID].  If [DeleteRoute] returns an error,
    that error is returned to the caller, no metadata write is issued (the
    finalizer stays) and no CleanedUp event is emitted.  Conversely, whenever
    the teardown writes metadata or emits CleanedUp, the trace is exactly: a
    pod step that ended without error (no pod bound; or a lookup that
    failed, with nothing deleted; or a deletion that succeeded or answered
    NotFound); then a successful [DeleteRoute]; then the CleanedUp event;
    then the write of the binding with the finalizer removed, whose outcome
    is the result. *)
Theorem teardown_gated_by_route_retraction {W} (r : SessionBindingReconciler W)
    (b : SessionBinding) (w : W) :
  ContainsFinalizer b sessionBindingFinalizer = true →
  SessionID (Spec b) ≠ "" →
  let res := value_of (handleDeletion r b) w in
  let d := calls (handleDeletion r b) w in
  (∀ err, CDeleteRoute (SessionID (Spec b)) (Some err) ∈ d →
     res = (Result_zero, Some err) ∧
     Forall (λ c, is_metadata_write c = false ∧
                  is_event_with_reason "CleanedUp" c = false) d) ∧
  (Exists (λ c, is_metadata_write c = true ∨
                is_event_with_reason "CleanedUp" c = true) d →
     ∃ d_pod ret,
       d = d_pod ++
           [ CDeleteRoute (SessionID (Spec b)) None;
             CEvent EventTypeNormal "CleanedUp" "Removed Cloudflare route and session pod";
             CUpdate (RemoveFinalizer b sessionBindingFinalizer) ret ] ∧
       pod_step_without_error b d_pod ∧
       ContainsFinalizer (RemoveFinalizer b sessionBindingFinalizer)
                         sessionBindingFinalizer = false ∧
       res = (Result_zero, result_err ret)).
Proof.
  intros Hfin Hsid.
  unfold handleDeletion, cleanupResources, cleanupPod, cleanupRoute.
  rewrite Hfin. rewrite (bool_decide_true _ Hsid). simpl.
  unfold_M. run.
  all: repeat match goal with
              | H : bool_decide _ = true |- _ => apply bool_decide_eq_true in H
              | H : bool_decide _ = false |- _ => apply bool_decide_eq_false in H
              | H : negb _ = false |- _ => apply negb_false_iff in H
              end.
  all: split;
    [ intros err Hin; elem_cases Hin; simplify_eq;
      (split; [reflexivity | repeat constructor])
    | intros Hex; apply Exists_exists in Hex as (c & Hin & Hc);
      try (elem_cases Hin; simplify_eq; simpl in Hc; destruct Hc; discriminate) ].
  all: first [ exists []; eexists; (split; [reflexivity |])
             | eexists [_]; eexists; (split; [reflexivity |])
             | eexists [_; _]; eexists; (split; [reflexivity |]) ];
       (split; [| split; [apply RemoveFinalizer_removes | reflexivity]]).
  all: unfold pod_step_without_error.
  all: first [ left; split; [| reflexivity];
               match goal with
               | H : ¬ _ ≠ _ |- _ =>
                   destruct (decide (BoundPod (Status b) = ""));
                   [assumption | contradiction]
               end
             | right; split; [assumption |];
               first [ left; eexists; reflexivity
                     | right; left; eexists; reflexivity
                     | right; right; eexists _, _; split; [reflexivity | assumption] ] ].
Qed.

(** X20 on the in-memory cluster with an edge whose retraction fails: the
    error is returned and nothing was written. *)
Lemma teardown_gated_by_route_retraction_witness :
  value_of (handleDeletion
              (fake.reconciler fake.noFaults examples.edge_retract_fails
                 examples.scheme 1000 2000)
              examples.binding_deleting) examples.cluster_deleting
  = (Result_zero, Some (errorString "edge unavailable")).
Proof.
  refine (proj1 (proj1 (teardown_gated_by_route_retraction
                          (fake.reconciler fake.noFaults examples.edge_retract_fails
                             examples.scheme 1000 2000)
                          examples.binding_deleting examples.cluster_deleting _ _)
                       (errorString "edge unavailable") _)).
  - reflexivity.
  - discriminate.
  - vm_compute. do 2 apply list_elem_of_further. apply list_elem_of_here.
Defined.

(** C3, the failing input.  The binding is under deletion, carries the
    finalizer, has the session ID [s1] and names its pod, which exists; the
    lookup of the pod times out.  The teardown returns success, emits
    CleanedUp and removes the finalizer, so that the binding is gone; yet no
    deletion of the pod was issued, let alone succeeded, and the pod is
    still in the cluster. *)
Lemma teardown_completes_with_pod_undeleted :
  let r := fake.reconciler examples.pod_lookup_times_out examples.edge_ok
             examples.scheme 1000 2000 in
  let b := examples.binding_deleting in
  let podKey := {| NNamespace := "ns"; NName := "session-s1" |} in
  let out := handleDeletion r b examples.cluster_deleting in
  ContainsFinalizer b sessionBindingFinalizer = true ∧
  SessionID (Spec b) ≠ "" ∧
  BoundPod (Status b) = "session-s1" ∧
  fake.lookup fake.podKey podKey (fake.pods examples.cluster_deleting)
    = Some examples.sidecar_first_pod ∧
  out.1.1 = (Result_zero, None) ∧
  existsb is_metadata_write out.2 = true ∧
  existsb (is_event_with_reason "CleanedUp") out.2 = true ∧
  fake.lookup fake.bindingKey examples.req_b1 (fake.bindings out.1.2) = None ∧
  existsb is_pod_delete out.2 = false ∧
  fake.lookup fake.podKey podKey (fake.pods out.1.2) = Some examples.sidecar_first_pod.
Proof.
  repeat split; try (vm_compute; reflexivity).
  vm_compute. discriminate.
Qed.

(** C4, the failing input.  The binding is under deletion, carries the
    finalizer and names its pod; the pod lookup times out.  The teardown does
    not surface the timeout: it retracts the route, emits CleanedUp, removes
    the finalizer and returns success, and the pod is still in the cluster. *)
Lemma teardown_drops_pod_lookup_failure :
  let r := fake.reconciler examples.pod_lookup_times_out examples.edge_ok
             examples.scheme 1000 2000 in
  let out := Reconcile r examples.req_b1 examples.cluster_deleting in
  out.1.1 = (Result_zero, None) ∧
  fake.pods out.1.2 = [examples.sidecar_first_pod] ∧
  fake.bindings out.1.2 = [] ∧
  out.2 =
    [ CGetBinding examples.req_b1 (Ok examples.binding_deleting);
      CGetPod {| NNamespace := "ns"; NName := "session-s1" |}
              (Err (fake.fault_error fake.FaultTimeout));
      CDeleteRoute "s1" None;
      CEvent EventTypeNormal "CleanedUp" "Removed Cloudflare route and session pod";
      CUpdate (RemoveFinalizer examples.binding_deleting sessionBindingFinalizer)
              (Ok (RemoveFinalizer examples.binding_deleting sessionBindingFinalizer)) ].
Proof. vm_compute. repeat split. Qed.

(** The same on every cluster: whatever error the pod lookup returns, the pod
    step of the teardown reports none.  The deletion next to it does tell
    NotFound from other errors. *)
Lemma cleanupPod_drops_lookup_errors {W} (r : SessionBindingReconciler W)
    (b : SessionBinding) (w w1 : W) (err : error) :
  BoundPod (Status b) ≠ "" →
  Get_Pod (rClient r)
    {| NNamespace := Namespace (Meta b); NName := BoundPod (Status b) |} w = (Err err, w1) →
  cleanupPod r b w =
    (None, w1,
     [CGetPod {| NNamespace := Namespace (Meta b); NName := BoundPod (Status b) |}
              (Err err)]).
Proof.
  intros Hbound Hget. unfold cleanupPod.
  rewrite (bool_decide_true _ Hbound). unfold_M. rewrite Hget. reflexivity.
Qed.

Lemma cleanupPod_surfaces_delete_errors {W} (r : SessionBindingReconciler W)
    (b : SessionBinding) (w w1 w2 : W) (pod : Pod) (err : error) :
  BoundPod (Status b) ≠ "" →
  Get_Pod (rClient r)
    {| NNamespace := Namespace (Meta b); NName := BoundPod (Status b) |} w = (Ok pod, w1) →
  Delete (rClient r) pod w1 = (Some err, w2) →
  value_of (cleanupPod r b) w = if IsNotFound err then None else Some err.
Proof.
  intros Hbound Hget Hdel. unfold cleanupPod.
  rewrite (bool_decide_true _ Hbound). unfold_M. rewrite Hget, Hdel.
  destruct (IsNotFound err); reflexivity.
Qed.

(** ** Finalizer install *)

Lemma Reconcile_status_pass_unfold {W} (r : SessionBindingReconciler W)
    (b : SessionBinding) (w : W) :
  Reconcile_status_pass r b w =
    let '(now, w1) := Now (rClock r) w in
    let '((b', (res, reconcileErr)), w2, d_active) :=
      reconcileActive r (stamped now b) w1 in
    let '(statusErr, w3, d_patch) := patchStatus r b' w2 in
    ((res, match reconcileErr with Some e => Some e | None => statusErr end), w3,
     CClockNow now :: d_active ++ d_patch).
Proof.
  unfold Reconcile_status_pass, stamped. unfold_M.
  destruct (Now (rClock r) w) as [now w1]. simpl.
  destruct (reconcileActive r _ w1) as [[[b' [res rerr]] w2] d_active].
  destruct (patchStatus r b' w2) as [[serr w3] d_patch].
  destruct rerr; simpl; rewrite ?app_nil_r; reflexivity.
Qed.

(** The status write-back always re-reads the binding first. *)
Lemma patchStatus_rereads {W} (r : SessionBindingReconciler W) (b : SessionBinding) (w : W) :
  ∃ ret d,
    calls (patchStatus r b) w =
      CGetBinding {| NNamespace := Namespace (Meta b); NName := Name (Meta b) |} ret :: d.
Proof.
  unfold patchStatus. unfold_M. run; eexists _, _; reflexivity.
Qed.

(** No path of active reconcile asks for an immediate requeue. *)
Lemma reconcileActive_never_requeues_immediately {W} (r : SessionBindingReconciler W)
    (b : SessionBinding) (w : W) :
  Requeue (value_of (reconcileActive r b) w).2.1 = false.
Proof.
  unfold reconcileActive, ensureSessionPod. unfold_M. run; reflexivity.
Qed.

(** C1, as the code has it. When a binding that is not under deletion lacks
    the operator finalizer, [Reconcile] adds it and writes the metadata back.
    If that write fails, its error is returned and nothing else happens.  If
    it succeeds, the same invocation goes on with the object the write
    returned: it reads the clock and stamps the status, runs the active
    reconcile and then the status write-back (which re-reads the binding);
    the result is the one of the active reconcile, with no immediate
    requeue. *)
Theorem finalizer_install_continues_with_status_pass {W}
    (r : SessionBindingReconciler W) (req : NamespacedName)
    (b : SessionBinding) (w w1 : W) :
  Get_SessionBinding (rClient r) req w = (Ok b, w1) →
  TimePtr_IsZero (DeletionTimestamp (Meta b)) = true →
  ContainsFinalizer b sessionBindingFinalizer = false →
  let b1 := AddFinalizer b sessionBindingFinalizer in
  ContainsFinalizer b1 sessionBindingFinalizer = true ∧
  match Update (rClient r) b1 w1 with
  | (Err err, w2) =>
      Reconcile r req w =
        ((Result_zero, Some err), w2, [CGetBinding req (Ok b); CUpdate b1 (Err err)])
  | (Ok b2, w2) =>
      let '(now, w3) := Now (rClock r) w2 in
      let '((b3, (res, reconcileErr)), w4, d_active) :=
        reconcileActive r (stamped now b2) w3 in
      let '(statusErr, w5, d_patch) := patchStatus r b3 w4 in
      Reconcile r req w =
        ((res, match reconcileErr with Some e => Some e | None => statusErr end), w5,
         CGetBinding req (Ok b) :: CUpdate b1 (Ok b2) :: CClockNow now
           :: d_active ++ d_patch) ∧
      Requeue res = false ∧
      ∃ ret d,
        d_patch =
          CGetBinding {| NNamespace := Namespace (Meta b3); NName := Name (Meta b3) |} ret
            :: d
  end.
Proof.
  intros Hget Hdel Hfin b1. split; [apply AddFinalizer_adds |].
  unfold Reconcile. unfold_M. rewrite Hget, Hdel, Hfin. simpl. fold b1.
  destruct (Update (rClient r) b1 w1) as [[b2 | err] w2]; [| reflexivity].
  rewrite Reconcile_status_pass_unfold.
  destruct (Now (rClock r) w2) as [now w3].
  pose proof (reconcileActive_never_requeues_immediately r (stamped now b2) w3) as Hrq.
  unfold value_of in Hrq.
  destruct (reconcileActive r (stamped now b2) w3) as [[[b3 [res rerr]] w4] d_active].
  pose proof (patchStatus_rereads r b3 w4) as Hpatch. unfold calls in Hpatch.
  destruct (patchStatus r b3 w4) as [[serr w5] d_patch].
  simpl in *. repeat split; assumption.
Qed.

(** C1 on the fresh binding [{sessionID: "s1", targetDeployment: "web"}]:
    the first invocation installs the finalizer and carries on to create the
    pod, end in Pending and ask to be called again in ten seconds. *)
Lemma finalizer_install_continues_with_status_pass_witness :
  ContainsFinalizer (AddFinalizer examples.binding_s1 sessionBindingFinalizer)
                    sessionBindingFinalizer = true.
Proof.
  refine (proj1 (finalizer_install_continues_with_status_pass examples.reconciler_ok
                   examples.req_b1 examples.binding_s1 examples.cluster_fresh
                   examples.cluster_fresh _ _ _)).
  - reflexivity.
  - reflexivity.
  - reflexivity.
Defined.

(** C1, as stated, fails: on a fresh binding without finalizer the invocation
    does not ask for an immediate requeue, and it reads the clock, calls the
    edge, creates the pod and writes the status, all in the invocation that
    installs the finalizer. *)
Lemma finalizer_install_returns_early_counterexample :
  let out := Reconcile examples.reconciler_ok examples.req_b1 examples.cluster_fresh in
  fake.lookup fake.bindingKey examples.req_b1 (fake.bindings examples.cluster_fresh)
    = Some examples.binding_s1 ∧
  TimePtr_IsZero (DeletionTimestamp (Meta examples.binding_s1)) = true ∧
  ContainsFinalizer examples.binding_s1 sessionBindingFinalizer = false ∧
  out.1.1 = (Result_after (10 * Second), None) ∧
  existsb is_clock_read out.2 = true ∧
  existsb is_edge_call out.2 = true ∧
  existsb is_pod_call out.2 = true ∧
  existsb is_status_write out.2 = true ∧
  fake.storedStatus examples.req_b1 out.1.2 ≠ Some examples.emptyStatus ∧
  ¬ returns_after_finalizer_install out.
Proof.
  repeat split; try (vm_compute; reflexivity).
  - vm_compute. discriminate.
  - intros (_ & Hrq & _). vm_compute in Hrq. discriminate.
Qed.

(** ** The in-memory cluster *)

Section StoreFacts.

Context {A : Type} (key : A → NamespacedName).

Lemma lookup_key (k : NamespacedName) (l : list A) (o : A) :
  fake.lookup key k l = Some o → key o = k.
Proof.
  induction l as [| x l IH]; simpl; [discriminate |].
  case_bool_decide; [intros [= <-]; assumption | exact IH].
Qed.

Lemma lookup_replace (o' : A) (l : list A) :
  fake.lookup key (key o') (fake.replace key o' l) =
    match fake.lookup key (key o') l with
    | Some _ => Some o'
    | None => None
    end.
Proof.
  induction l as [| x l IH]; simpl; [reflexivity |].
  case_bool_decide; simpl.
  - rewrite bool_decide_true by reflexivity. reflexivity.
  - rewrite bool_decide_false by assumption. exact IH.
Qed.

Lemma lookup_remove (k : NamespacedName) (l : list A) :
  fake.lookup key k (fake.remove key k l) = None.
Proof.
  induction l as [| x l IH]; simpl; [reflexivity |].
  case_bool_decide; simpl; [exact IH |].
  rewrite bool_decide_false by assumption. exact IH.
Qed.

Lemma lookup_append (k : NamespacedName) (l : list A) (o : A) :
  fake.lookup key k l = None → key o = k →
  fake.lookup key k (l ++ [o]) = Some o.
Proof.
  intros Hnone Hk. induction l as [| x l IH]; simpl in *.
  - rewrite bool_decide_true by assumption. reflexivity.
  - case_bool_decide; [discriminate | auto].
Qed.

Lemma replace_replace (o : A) (l : list A) :
  fake.replace key o (fake.replace key o l) = fake.replace key o l.
Proof.
  induction l as [| x l IH]; simpl; [reflexivity |].
  case_bool_decide; simpl.
  - rewrite bool_decide_true by reflexivity. f_equal. exact IH.
  - rewrite bool_decide_false by assumption. f_equal. exact IH.
Qed.

End StoreFacts.

Lemma fault_error_not_NotFound (f : fake.Fault) : IsNotFound (fake.fault_error f) = false.
Proof. destruct f; reflexivity. Qed.

Lemma binding_eq (x y : SessionBinding) :
  Meta x = Meta y → Spec x = Spec y → Status x = Status y → x = y.
Proof. destruct x, y; simpl; congruence. Qed.

Lemma status_eq (x y : SessionBindingStatus) :
  Phase x = Phase y → BoundPod x = BoundPod y → RouteEndpoint x = RouteEndpoint y →
  ObservedGeneration x = ObservedGeneration y → Conditions x = Conditions y →
  LastReconcileTime x = LastReconcileTime y → x = y.
Proof. destruct x, y; simpl; congruence. Qed.

Lemma condition_is_transport (cs cs' : list Condition) ty status reason message :
  condition_is cs ty status reason message →
  FindStatusCondition cs' ty = FindStatusCondition cs ty →
  condition_is cs' ty status reason message.
Proof.
  intros (c & Hfind & H) Heq. exists c. rewrite Heq. split; assumption.
Qed.

(** ** Idempotence on the in-memory cluster *)

#[local] Arguments reconcileActive : simpl never.

(** On the in-memory cluster, setting a condition leaves the cluster alone. *)
Ltac fake_worlds :=
  repeat match goal with
  | H : setBindingCondition _ _ _ _ _ _ ?w = (_, ?w', _) |- _ =>
      assert (w' = w) by (eapply setBindingCondition_world; [| exact H]; reflexivity);
      subst w'
  end.

Ltac distinct_types := let H := fresh in intros H; vm_compute in H; discriminate H.

(** A condition set earlier on the path still reads the same at its end. *)
Ltac conds :=
  first
    [ eassumption
    | eapply condition_is_transport;
      [ | match goal with
          | H : ∀ ty', ty' ≠ _ → FindStatusCondition ?cs ty' = _
            |- FindStatusCondition ?cs _ = _ => apply H; distinct_types
          end ];
      conds ].

Ltac normalize_objs :=
  repeat match goal with
  | H : Meta ?s = _ |- _ => is_var s; rewrite ?H in *; clear H
  | H : Spec ?s = _ |- _ => is_var s; rewrite ?H in *; clear H
  end.

(** Run the second invocation along the path the first one took. *)
Ltac replay :=
  repeat first
    [ rewrite setBindingCondition_noop
        by (simpl;
            match goal with
            | H : ∀ ty status reason message, condition_is _ ty status reason message → _
              |- _ => apply H
            end; conds)
    | rewrite lookup_append by (first [assumption | reflexivity])
    | match goal with H : ?x = _ |- context [?x] => rewrite H end
    | progress simpl ].

Lemma AddFinalizer_key (b : SessionBinding) (finalizer : string) :
  fake.bindingKey (AddFinalizer b finalizer) = fake.bindingKey b.
Proof. unfold AddFinalizer. destruct (ContainsFinalizer b finalizer); reflexivity. Qed.

Lemma AddFinalizer_DeletionTimestamp (b : SessionBinding) (finalizer : string) :
  DeletionTimestamp (Meta (AddFinalizer b finalizer)) = DeletionTimestamp (Meta b).
Proof. unfold AddFinalizer. destruct (ContainsFinalizer b finalizer); reflexivity. Qed.

(** *** What the store keeps of a status *)

Lemma storedTime_idempotent (t : Time) :
  fake.storedTime (fake.storedTime t) = fake.storedTime t.
Proof.
  unfold fake.storedTime. rewrite Z.div_mul by (unfold Second; discriminate).
  reflexivity.
Qed.

Lemma storedCondition_idempotent (cs : list Condition) :
  fake.storedCondition <$> (fake.storedCondition <$> cs) = fake.storedCondition <$> cs.
Proof.
  rewrite <- list_fmap_compose. apply list_fmap_ext. intros _ c _.
  unfold fake.storedCondition. simpl. rewrite storedTime_idempotent. reflexivity.
Qed.

Lemma FindStatusCondition_stored (cs : list Condition) (ty : string) :
  FindStatusCondition (fake.storedCondition <$> cs) ty
    = fake.storedCondition <$> FindStatusCondition cs ty.
Proof.
  induction cs as [| c cs IH]; simpl; [reflexivity |].
  destruct (decide (CType c = ty)); [reflexivity | exact IH].
Qed.

Lemma condition_is_stored (cs : list Condition) ty status reason message :
  condition_is cs ty status reason message →
  condition_is (fake.storedCondition <$> cs) ty status reason message.
Proof.
  intros (c & Hfind & H). exists (fake.storedCondition c).
  rewrite FindStatusCondition_stored, Hfind. split; [reflexivity | exact H].
Qed.

(** A status read back from the store and stamped as before is stored as it
    was. *)
Lemma storedForm_stamped (s : SessionBindingStatus) :
  fake.storedForm
    (set_LastReconcileTime (LastReconcileTime s)
       (set_ObservedGeneration (ObservedGeneration s) (fake.storedForm s)))
  = fake.storedForm s.
Proof.
  unfold fake.storedForm. simpl. rewrite storedCondition_idempotent. reflexivity.
Qed.

Lemma same_but_times_stored (s : SessionBindingStatus) (og : Z) (t : option Time) :
  same_but_times
    (set_LastReconcileTime t (set_ObservedGeneration og (fake.storedForm s))) s.
Proof.
  repeat split. intros ty status reason message. apply condition_is_stored.
Qed.

Lemma same_but_times_eq (s' s : SessionBindingStatus) : s' = s → same_but_times s' s.
Proof. intros ->. repeat split. auto. Qed.

Section Idempotence.

Variables (faults : fake.Faults) (e : fake.Edge) (scheme : Scheme).
Variables (clock wall wall' : Time).

Local Abbreviation R := (fake.reconciler faults e scheme clock wall).
Local Abbreviation R' := (fake.reconciler faults e scheme clock wall').

(** A successful active reconcile leaves the bindings alone, and a binding
    whose status reads as the one it computed, the instants aside, is mapped
    to itself afterwards, on every cluster with the same pods and whatever
    the process clock reads. *)
Lemma reconcileActive_replay b c b1 res c1 d :
  reconcileActive R b c = ((b1, (res, None)), c1, d) →
  fake.bindings c1 = fake.bindings c ∧
  Meta b1 = Meta b ∧ Spec b1 = Spec b ∧
  ObservedGeneration (Status b1) = ObservedGeneration (Status b) ∧
  LastReconcileTime (Status b1) = LastReconcileTime (Status b) ∧
  ∀ b' c2,
    Spec b' = Spec b → Namespace (Meta b') = Namespace (Meta b) →
    same_but_times (Status b') (Status b1) → fake.pods c2 = fake.pods c1 →
    (reconcileActive R' b' c2).1 = (b', (res, None), c2).
Proof.
  intros Hrun.
  unfold reconcileActive, ensureSessionPod, SetControllerReference in Hrun. unfold_M.
  simpl in Hrun. unfold fake.get, fake.create in Hrun.
  run.
  all: try match goal with
           | H : negb (IsNotFound (fake.fault_error ?f)) = false |- _ =>
               rewrite fault_error_not_NotFound in H; discriminate H
           end.
  all: fake_worlds; frames.
  all: repeat (split; [ first [reflexivity | congruence] | ]).
  all: normalize_objs.
  all: intros b' cc Hspec Hns (Hphase & Hbound & Hroute & Hconds) Hpods.
  all: simpl in Hphase, Hbound, Hroute, Hconds.
  all: unfold reconcileActive, ensureSessionPod; unfold_M; simpl; unfold fake.get.
  all: rewrite ?Hspec, ?Hns, ?Hpods.
  all: replay.
  all: try (destruct b'; simpl in *; subst; reflexivity).
  all: do 2 f_equal; apply binding_eq; simpl; try reflexivity;
       apply status_eq; simpl; congruence.
Qed.

(** The second invocation when the binding is gone. *)
Lemma second_run_not_found req c :
  fake.failGetBinding faults req = None →
  fake.lookup fake.bindingKey req (fake.bindings c) = None →
  world_after (Reconcile R' req) c = c.
Proof.
  intros Hfault Hlook. unfold world_after, Reconcile. unfold_M. simpl.
  unfold fake.get. rewrite Hfault, Hlook. reflexivity.
Qed.

(** The second invocation when the binding is under deletion and no longer
    carries the finalizer. *)
Lemma second_run_deleted req c b' :
  fake.failGetBinding faults req = None →
  fake.lookup fake.bindingKey req (fake.bindings c) = Some b' →
  TimePtr_IsZero (DeletionTimestamp (Meta b')) = false →
  ContainsFinalizer b' sessionBindingFinalizer = false →
  world_after (Reconcile R' req) c = c.
Proof.
  intros Hfault Hlook Hdel Hfin. unfold world_after, Reconcile, handleDeletion.
  unfold_M. simpl. unfold fake.get. rewrite Hfault, Hlook. simpl.
  rewrite Hdel, Hfin. reflexivity.
Qed.

(** The second invocation when the binding is settled: the status it
    computes is the stored one, or is stored as the stored one. *)
Lemma second_run_settled req c b' :
  fake.failGetBinding faults req = None →
  fake.lookup fake.bindingKey req (fake.bindings c) = Some b' →
  TimePtr_IsZero (DeletionTimestamp (Meta b')) = true →
  ContainsFinalizer b' sessionBindingFinalizer = true →
  settled R' clock b' c →
  world_after (Reconcile R' req) c = c.
Proof.
  intros Hfault Hlook Hdel Hfin ((res & Hact) & Hstored).
  pose proof (lookup_key _ _ _ _ Hlook) as Hkey.
  unfold world_after, Reconcile. unfold_M. simpl.
  unfold fake.get. rewrite Hfault, Hlook. simpl. rewrite Hdel, Hfin. simpl.
  rewrite Reconcile_status_pass_unfold. simpl.
  fold (stamped clock b').
  destruct (reconcileActive R' (stamped clock b') c) as [[out c'] d]. simpl in Hact.
  injection Hact as -> ->.
  unfold patchStatus. unfold_M. simpl. unfold fake.get.
  change {| NNamespace := Namespace (Meta b'); NName := Name (Meta b') |}
    with (fake.bindingKey b').
  rewrite Hkey, Hfault, Hlook. simpl.
  case_bool_decide as Heq; [reflexivity |].
  destruct Hstored as [Hsame | [Hform Hrep]]; [symmetry in Hsame; contradiction |].
  simpl. unfold fake.statusUpdate.
  destruct (fake.failStatusUpdate faults _); [reflexivity |].
  change (fake.bindingKey (set_Status _ b')) with (fake.bindingKey b').
  rewrite Hkey, Hlook. simpl.
  change (set_LastReconcileTime (Some clock)
            (set_ObservedGeneration (Generation (Meta b')) (Status b')))
    with (Status (stamped clock b')).
  rewrite Hform.
  replace (set_Status (Status b') b') with b' by (destruct b'; reflexivity).
  rewrite Hrep. destruct c; reflexivity.
Qed.

(** What a successful status pass on the stored binding leaves behind. *)
Lemma status_pass_settles req b c res c1 d :
  fake.failGetBinding faults req = None →
  fake.lookup fake.bindingKey req (fake.bindings c) = Some b →
  Reconcile_status_pass R b c = ((res, None), c1, d) →
  ∃ b', fake.lookup fake.bindingKey req (fake.bindings c1) = Some b' ∧
        Meta b' = Meta b ∧ settled R' clock b' c1.
Proof.
  intros Hfault Hlook Hrun.
  pose proof (lookup_key _ _ _ _ Hlook) as Hkey.
  rewrite Reconcile_status_pass_unfold in Hrun. simpl in Hrun.
  destruct (reconcileActive R (stamped clock b) c) as [[[b3 [res0 rerr]] c_b] d_act] eqn:Hact.
  destruct rerr as [err |].
  { destruct (patchStatus R b3 c_b) as [[? ?] ?]. discriminate Hrun. }
  apply reconcileActive_replay in Hact
    as (Hbind & Hmeta & Hspec & Hog & Hlt & Hreplay).
  simpl in Hmeta, Hspec, Hog, Hlt.
  unfold patchStatus in Hrun. unfold_M. simpl in Hrun. unfold fake.get in Hrun.
  change {| NNamespace := Namespace (Meta b3); NName := Name (Meta b3) |}
    with (fake.bindingKey b3) in Hrun.
  assert (Hkey3 : fake.bindingKey b3 = req)
    by (unfold fake.bindingKey; rewrite Hmeta; exact Hkey).
  rewrite Hkey3, Hfault, Hbind, Hlook in Hrun. simpl in Hrun.
  destruct (bool_decide (Status b = Status b3)) eqn:Heq.
  - apply bool_decide_eq_true in Heq. simpl in Hrun. injection Hrun as <- <- <-.
    assert (Hstamp : stamped clock b = b).
    { unfold stamped. apply binding_eq; simpl; try reflexivity.
      apply status_eq; simpl; congruence. }
    exists b. rewrite Hbind. repeat split; try assumption.
    + exists res0. rewrite Hstamp. apply Hreplay; auto.
      apply same_but_times_eq. exact Heq.
    + left. rewrite Hstamp. reflexivity.
  - unfold fake.statusUpdate in Hrun. simpl in Hrun.
    destruct (fake.failStatusUpdate faults (set_Status (Status b3) b)); [discriminate Hrun |].
    change (fake.bindingKey (set_Status (Status b3) b)) with (fake.bindingKey b) in Hrun.
    rewrite Hkey, Hbind, Hlook in Hrun. simpl in Hrun. injection Hrun as <- <- <-.
    set (b' := set_Status (fake.storedForm (Status b3)) b).
    exists b'. simpl.
    pose proof (lookup_replace fake.bindingKey b' (fake.bindings c)) as Hrep.
    change (fake.bindingKey b') with (fake.bindingKey b) in Hrep.
    rewrite Hkey, Hlook in Hrep.
    split; [exact Hrep |]. split; [reflexivity |]. split.
    + exists res0. apply Hreplay; auto.
      apply same_but_times_stored.
    + right. split; [| apply replace_replace].
      unfold stamped, b'. simpl. rewrite <- Hog, <- Hlt.
      apply storedForm_stamped.
Qed.

(** What a successful teardown of the stored binding leaves behind. *)
Lemma teardown_leaves_no_finalizer req b c res c1 d :
  fake.lookup fake.bindingKey req (fake.bindings c) = Some b →
  TimePtr_IsZero (DeletionTimestamp (Meta b)) = false →
  handleDeletion R b c = ((res, None), c1, d) →
  fake.lookup fake.bindingKey req (fake.bindings c1) = None ∨
  ∃ b', fake.lookup fake.bindingKey req (fake.bindings c1) = Some b' ∧
        TimePtr_IsZero (DeletionTimestamp (Meta b')) = false ∧
        ContainsFinalizer b' sessionBindingFinalizer = false.
Proof.
  intros Hlook Hdel Hrun.
  pose proof (lookup_key _ _ _ _ Hlook) as Hkey.
  unfold handleDeletion in Hrun.
  destruct (ContainsFinalizer b sessionBindingFinalizer) eqn:Hfin; simpl in Hrun.
  2: { injection Hrun as <- <- <-. right. exists b. auto. }
  unfold_M.
  destruct (cleanupResources R b c) as [[cerr c_a] d_a] eqn:Hclean.
  assert (Hbind : fake.bindings c_a = fake.bindings c).
  { unfold cleanupResources, cleanupPod, cleanupRoute in Hclean. unfold_M.
    simpl in Hclean. unfold fake.get, fake.delete in Hclean.
    run; reflexivity. }
  destruct cerr as [err |]; [discriminate Hrun |].
  simpl in Hrun. unfold fake.update in Hrun.
  destruct (fake.failUpdate faults (RemoveFinalizer b sessionBindingFinalizer));
    [discriminate Hrun |].
  change (fake.bindingKey (RemoveFinalizer b sessionBindingFinalizer))
    with (fake.bindingKey b) in Hrun.
  rewrite Hkey, Hbind, Hlook in Hrun. simpl in Hrun.
  match type of Hrun with
  | context [if ?t then _ else _] => destruct t
  end; injection Hrun as <- <- <-; simpl.
  - left. apply lookup_remove.
  - right. exists (set_Status (Status b) (RemoveFinalizer b sessionBindingFinalizer)).
    pose proof (lookup_replace fake.bindingKey
                  (set_Status (Status b) (RemoveFinalizer b sessionBindingFinalizer))
                  (fake.bindings c)) as Hrep.
    change (fake.bindingKey
              (set_Status (Status b) (RemoveFinalizer b sessionBindingFinalizer)))
      with (fake.bindingKey b) in Hrep.
    rewrite Hkey, Hlook in Hrep.
    repeat split; [exact Hrep | exact Hdel |].
    exact (RemoveFinalizer_removes b sessionBindingFinalizer).
Qed.

(** After a successful invocation, a further one leaves the cluster as it
    is, whatever the process clock reads by then. *)
Lemma Reconcile_stable req c res c1 d :
  Reconcile R req c = ((res, None), c1, d) →
  world_after (Reconcile R' req) c1 = c1.
Proof.
  intros Hrun. unfold Reconcile in Hrun. unfold_M. simpl in Hrun.
  unfold fake.get in Hrun.
  destruct (fake.failGetBinding faults req) as [f |] eqn:Hfault.
  { simpl in Hrun. unfold IgnoreNotFound in Hrun.
    rewrite fault_error_not_NotFound in Hrun. discriminate Hrun. }
  destruct (fake.lookup fake.bindingKey req (fake.bindings c)) as [b |] eqn:Hlook.
  2: { simpl in Hrun. injection Hrun as <- <- <-.
       apply second_run_not_found; assumption. }
  pose proof (lookup_key _ _ _ _ Hlook) as Hkey.
  simpl in Hrun.
  destruct (TimePtr_IsZero (DeletionTimestamp (Meta b))) eqn:Hdel; simpl in Hrun.
  - destruct (ContainsFinalizer b sessionBindingFinalizer) eqn:Hfin; simpl in Hrun.
    + destruct (Reconcile_status_pass R b c) as [[[res0 err0] c0] d0] eqn:Hpass.
      simpl in Hrun. injection Hrun as -> -> -> <-.
      destruct (status_pass_settles req b c res c1 d0 Hfault Hlook Hpass)
        as (b' & Hlook' & Hmeta & Hsettled).
      apply (second_run_settled req c1 b'); try assumption.
      * rewrite Hmeta. exact Hdel.
      * unfold ContainsFinalizer in *. rewrite Hmeta. exact Hfin.
    + unfold fake.update in Hrun.
      destruct (fake.failUpdate faults (AddFinalizer b sessionBindingFinalizer));
        [discriminate Hrun |].
      rewrite AddFinalizer_key, Hkey, Hlook in Hrun. simpl in Hrun.
      rewrite AddFinalizer_DeletionTimestamp, Hdel in Hrun. simpl in Hrun.
      set (b2 := set_Status (Status b) (AddFinalizer b sessionBindingFinalizer)) in *.
      set (c_a := fake.set_bindings (fake.replace fake.bindingKey b2 (fake.bindings c)) c) in *.
      destruct (Reconcile_status_pass R b2 c_a) as [[[res0 err0] c0] d0] eqn:Hpass.
      simpl in Hrun. injection Hrun as -> -> -> <-.
      assert (Hlook2 : fake.lookup fake.bindingKey req (fake.bindings c_a) = Some b2).
      { pose proof (lookup_replace fake.bindingKey b2 (fake.bindings c)) as Hrep.
        change (fake.bindingKey b2)
          with (fake.bindingKey (AddFinalizer b sessionBindingFinalizer)) in Hrep.
        rewrite AddFinalizer_key, Hkey, Hlook in Hrep. exact Hrep. }
      destruct (status_pass_settles req b2 c_a res c1 d0 Hfault Hlook2 Hpass)
        as (b' & Hlook' & Hmeta & Hsettled).
      apply (second_run_settled req c1 b'); try assumption.
      * rewrite Hmeta. change (Meta b2) with (Meta (AddFinalizer b sessionBindingFinalizer)).
        rewrite AddFinalizer_DeletionTimestamp. exact Hdel.
      * unfold ContainsFinalizer. rewrite Hmeta.
        exact (AddFinalizer_adds b sessionBindingFinalizer).
  - destruct (handleDeletion R b c) as [[[res0 err0] c0] d0] eqn:Hdeletion.
    simpl in Hrun. injection Hrun as -> -> -> <-.
    destruct (teardown_leaves_no_finalizer req b c res c1 d0 Hlook Hdel Hdeletion)
      as [Hnone | (b' & Hlook' & Hdel' & Hfin')].
    + apply second_run_not_found; assumption.
    + apply (second_run_deleted req c1 b'); assumption.
Qed.

(** C8. Reconcile is idempotent over status.  On the in-memory cluster, for
    every store, every assignment of transport faults to calls, every fixed
    edge and every reading of the injected clock: once an invocation of
    [Reconcile] has returned without error, any number of further invocations
    leave the cluster exactly as that invocation left it, so the status they
    produce for the binding is the one the first successful invocation
    produced.  The process clock behind the conditions' transition times may
    read anything in the later invocations. *)
Theorem Reconcile_idempotent_over_status req c :
  (value_of (Reconcile R req) c).2 = None →
  ∀ n,
    Reconcile_again R' req n (world_after (Reconcile R req) c)
      = world_after (Reconcile R req) c ∧
    fake.storedStatus req (Reconcile_again R' req n (world_after (Reconcile R req) c))
      = fake.storedStatus req (world_after (Reconcile R req) c).
Proof.
  intros Hok n. unfold value_of, world_after in *.
  destruct (Reconcile R req c) as [[[res err] c1] d] eqn:Hrun.
  simpl in *. subst err.
  assert (Hfix : Reconcile_again R' req n c1 = c1).
  { induction n as [| n IH]; simpl; [reflexivity |].
    rewrite (Reconcile_stable req c res c1 d Hrun). exact IH. }
  rewrite Hfix. split; reflexivity.
Qed.

End Idempotence.

(** C8 on the happy path: the first invocation installs the finalizer,
    creates the pod and ends in Pending; three more invocations, with the
    process clock at another reading, produce the same status. *)
Lemma Reconcile_idempotent_over_status_witness :
  fake.storedStatus examples.req_b1
    (Reconcile_again
       (fake.reconciler fake.noFaults examples.edge_ok examples.scheme 1000 9000)
       examples.req_b1 3
       (world_after (Reconcile examples.reconciler_ok examples.req_b1)
                    examples.cluster_fresh))
  = fake.storedStatus examples.req_b1
      (world_after (Reconcile examples.reconciler_ok examples.req_b1)
                   examples.cluster_fresh).
Proof.
  refine (proj2 (Reconcile_idempotent_over_status fake.noFaults examples.edge_ok
                   examples.scheme 1000 2000 9000 examples.req_b1
                   examples.cluster_fresh _ 3%nat)).
  vm_compute. reflexivity.
Defined.

(** The injected clock has to stand still for C8: when it has moved on by a
    second at the next invocation, the stamp moves with it and the status is
    written again. *)
Lemma Reconcile_status_follows_the_clock :
  let first := fake.reconciler fake.noFaults examples.edge_ok examples.scheme
                 (1000 * Second) (2000 * Second) in
  let later := fake.reconciler fake.noFaults examples.edge_ok examples.scheme
                 (1001 * Second) (2000 * Second) in
  let c1 := world_after (Reconcile first examples.req_b1) examples.cluster_fresh in
  (LastReconcileTime <$> fake.storedStatus examples.req_b1 c1)
    = Some (Some (1000 * Second)) ∧
  (LastReconcileTime <$>
     fake.storedStatus examples.req_b1 (world_after (Reconcile later examples.req_b1) c1))
    = Some (Some (1001 * Second)) ∧
  existsb is_status_write (calls (Reconcile later examples.req_b1) c1) = true.
Proof. vm_compute. repeat split. Qed.

(** Within a second the clock may move: the stamp read half a second later
    is written again and stored as the same whole second, so the cluster is
    left as it was. *)
Lemma Reconcile_stores_whole_seconds :
  let first := fake.reconciler fake.noFaults examples.edge_ok examples.scheme
                 (1000 * Second + 250000000) (2000 * Second) in
  let later := fake.reconciler fake.noFaults examples.edge_ok examples.scheme
                 (1000 * Second + 750000000) (2000 * Second) in
  let c1 := world_after (Reconcile first examples.req_b1) examples.cluster_fresh in
  (LastReconcileTime <$> fake.storedStatus examples.req_b1 c1)
    = Some (Some (1000 * Second)) ∧
  world_after (Reconcile later examples.req_b1) c1 = c1 ∧
  existsb is_status_write (calls (Reconcile later examples.req_b1) c1) = true.
Proof. vm_compute. repeat split. Qed.

(** * Further properties of the operator *)

(** ** Readiness and endpoint *)

(** X1. [isPodReady] holds exactly when the pod's phase is Running and some
    condition of the pod has type Ready and status True; the position of the
    condition and whatever other conditions say do not matter. *)
Theorem isPodReady_iff (pod : Pod) :
  isPodReady pod = true ↔
  PodPhase (PodStatus_ pod) = PodRunning ∧
  ∃ cond, cond ∈ PodConditions (PodStatus_ pod) ∧
          PCType cond = PodReady ∧ PCStatus cond = corev1.ConditionTrue.
Proof.
  unfold isPodReady.
  assert (Hloop : ∀ conds,
    hasReadyCondition conds = true ↔
    ∃ cond, cond ∈ conds ∧ PCType cond = PodReady ∧ PCStatus cond = corev1.ConditionTrue).
  { induction conds as [| c conds IH]; simpl.
    - split; [discriminate |]. intros (cond & Hin & _). inversion Hin.
    - destruct (bool_decide (PCType c = PodReady)) eqn:Ht;
        destruct (bool_decide (PCStatus c = corev1.ConditionTrue)) eqn:Hs; simpl.
      1: { apply bool_decide_eq_true in Ht, Hs. split; [| reflexivity].
           intros _. exists c. split; [left | auto]. }
      all: rewrite IH; split;
        [ intros (cond & Hin & H); exists cond; split; [right; exact Hin | exact H]
        | intros (cond & Hin & Hty & Hst);
          apply elem_of_cons in Hin as [-> | Hin]; [| exists cond; auto] ].
      all: try (apply bool_decide_eq_false in Ht; contradiction).
      all: apply bool_decide_eq_false in Hs; contradiction. }
  case_bool_decide as Hphase.
  - split; [discriminate |]. intros [Hrun _]. contradiction.
  - rewrite Hloop. split; [intros H; split; [| exact H] | intros [_ H]; exact H].
    destruct (decide (PodPhase (PodStatus_ pod) = PodRunning)); [assumption |].
    contradiction.
Qed.

Lemma append_empty (s t : string) : s +:+ t = "" → s = "".
Proof. destruct s; [reflexivity | discriminate]. Qed.

Lemma podEndpoint_empty_no_IP (pod : Pod) :
  podEndpoint pod = "" → PodIP (PodStatus_ pod) = "".
Proof.
  unfold podEndpoint, Sprintf_s_colon_d. case_bool_decide as Hip; [auto |].
  intros H. apply append_empty in H. contradiction.
Qed.

(** X2. [podEndpoint] is empty exactly when the pod has no IP: no choice of
    containers or ports makes the endpoint of a pod with an IP empty, so the
    PodEndpointMissing outcome of the reconciler is about the IP alone. *)
Theorem podEndpoint_empty_iff (pod : Pod) :
  podEndpoint pod = "" ↔ PodIP (PodStatus_ pod) = "".
Proof.
  split; [apply podEndpoint_empty_no_IP |].
  intros Hip. unfold podEndpoint. rewrite bool_decide_eq_true_2; done.
Qed.

(** ** The edge client *)

(** X3. The outcome of every method of the real edge client is the same for
    any two clients: account ID, API token and HTTP client never influence
    what [EnsureSession], [EnsureRoute] or [DeleteRoute] return, and no
    method sends a request, with credentials or without. *)
Theorem APIClient_outcome_independent_of_client (c c' : cloudflare.APIClient)
    (sessionID endpoint : string) :
  cloudflare.EnsureSession c sessionID = cloudflare.EnsureSession c' sessionID ∧
  cloudflare.EnsureRoute c sessionID endpoint
    = cloudflare.EnsureRoute c' sessionID endpoint ∧
  cloudflare.DeleteRoute c sessionID = cloudflare.DeleteRoute c' sessionID ∧
  (cloudflare.EnsureSession c sessionID).2 = [] ∧
  (cloudflare.EnsureRoute c sessionID endpoint).2 = [] ∧
  (cloudflare.DeleteRoute c sessionID).2 = [].
Proof.
  unfold cloudflare.EnsureSession, cloudflare.EnsureRoute, cloudflare.DeleteRoute.
  repeat split; repeat case_bool_decide;
    repeat match goal with |- context [?a || ?b] => destruct (a || b) end;
    reflexivity.
Qed.

(** X4. Argument validation of the real edge client, whatever its
    credentials: [EnsureRoute] fails exactly when the session ID or the
    endpoint is empty, and reports the session ID when both are;
    [EnsureSession] fails exactly when the session ID is empty and reports
    the session as existing exactly when it does not fail; [DeleteRoute]
    never fails, the empty session ID included. *)
Theorem APIClient_argument_validation (c : cloudflare.APIClient)
    (sessionID endpoint : string) :
  ((cloudflare.EnsureRoute c sessionID endpoint).1 =
     if decide (sessionID = "") then Some (errorString "sessionID is empty")
     else if decide (endpoint = "") then Some (errorString "endpoint is empty")
     else None) ∧
  ((cloudflare.EnsureSession c sessionID).1 =
     if decide (sessionID = "") then (false, Some (errorString "sessionID is empty"))
     else (true, None)) ∧
  (cloudflare.DeleteRoute c sessionID).1 = None.
Proof.
  unfold cloudflare.EnsureSession, cloudflare.EnsureRoute, cloudflare.DeleteRoute.
  repeat split; repeat case_bool_decide; repeat case_decide; try congruence;
    repeat match goal with |- context [?a || ?b] => destruct (a || b) end;
    reflexivity.
Qed.

(** ** Pod ensure *)

(** X5. [ensureSessionPod] is a lookup-then-create. Whenever it issues a
    [Create], the calls before it are exactly a pod lookup under the name
    ["session-" + sessionID] in the binding's namespace that answered
    NotFound, and a successful lookup of the target deployment; when the pod
    lookup succeeds the found pod is returned as it is and nothing else is
    called; a lookup error other than NotFound is returned after that single
    call. *)
Theorem ensureSessionPod_lookup_then_create {W} (r : SessionBindingReconciler W)
    (b : SessionBinding) (w : W) :
  let podKey := {| NNamespace := Namespace (Meta b);
                   NName := "session-" +:+ SessionID (Spec b) |} in
  let depKey := {| NNamespace := Namespace (Meta b);
                   NName := TargetDeployment (Spec b) |} in
  let out := value_of (ensureSessionPod r b) w in
  let d := calls (ensureSessionPod r b) w in
  (∃ ret, head d = Some (CGetPod podKey ret) ∧
          (∀ pod, ret = Ok pod → out = Ok pod ∧ d = [CGetPod podKey ret]) ∧
          (∀ err, ret = Err err → IsNotFound err = false →
                  out = Err err ∧ d = [CGetPod podKey ret])) ∧
  (∀ obj ret, CCreate obj ret ∈ d →
     ∃ err dep rest,
       IsNotFound err = true ∧
       d = CGetPod podKey (Err err) :: CGetDeployment depKey (Ok dep)
             :: CCreate obj ret :: rest).
Proof.
  unfold ensureSessionPod, SetControllerReference. unfold_M. simpl.
  run.
  all: split.
  all: try (eexists; split; [reflexivity |];
            (split; [ intros pod0 Hret | intros err0 Hret Hnf ]);
            simplify_eq; try (split; reflexivity);
            rewrite Hnf in *; discriminate).
  all: intros obj ret Hin; elem_cases Hin; simplify_eq.
  all: eexists _, _, _; (split; [| reflexivity]).
  all: apply negb_false_iff; assumption.
Qed.

(** X6. Every pod [ensureSessionPod] asks the cluster to create is built from
    the deployment it has just looked up: it is named
    ["session-" + sessionID], lives in the binding's namespace, carries the
    template's pod spec and an empty status, has the binding as its only
    owner (a controller reference), carries the template's labels with the
    session-id and managed-by labels set on top, and the template's
    annotations with the session-id annotation set on top. *)
Theorem ensureSessionPod_creates_the_materialised_pod {W}
    (r : SessionBindingReconciler W) (b : SessionBinding) (w : W)
    (obj : Pod) (ret : result Pod) :
  CCreate obj ret ∈ calls (ensureSessionPod r b) w →
  ∃ depKey dep kind,
    CGetDeployment depKey (Ok dep) ∈ calls (ensureSessionPod r b) w ∧
    NName depKey = TargetDeployment (Spec b) ∧
    NNamespace depKey = Namespace (Meta b) ∧
    SessionBindingKind (rScheme r) = Some kind ∧
    materialised_from b dep kind obj.
Proof.
  unfold ensureSessionPod, SetControllerReference. unfold_M. simpl.
  run.
  all: intros Hin; elem_cases Hin; simplify_eq.
  all: eexists _, _, _; split; [elem_find |].
  all: repeat split; try eassumption; try reflexivity.
  all: eexists; (split; [reflexivity |]); repeat split.
  all: try (rewrite lookup_insert_ne by discriminate; apply lookup_insert_eq).
  all: try apply lookup_insert_eq.
  all: intros k Hk1; try intros Hk2;
       rewrite ?lookup_insert_ne by (intros Heq; symmetry in Heq; contradiction);
       reflexivity.
Qed.

(** X6 on the in-memory cluster: the pod created for the fresh binding. *)
Lemma ensureSessionPod_creates_the_materialised_pod_witness :
  ∃ obj ret depKey dep kind,
    CCreate obj ret
      ∈ calls (ensureSessionPod examples.reconciler_ok examples.binding_s1)
              examples.cluster_fresh ∧
    NName depKey = "web" ∧
    materialised_from examples.binding_s1 dep kind obj.
Proof.
  eexists _, (Ok _).
  edestruct (ensureSessionPod_creates_the_materialised_pod examples.reconciler_ok
               examples.binding_s1 examples.cluster_fresh)
    as (depKey & dep & kind & _ & Hname & _ & _ & Hpod).
  - vm_compute. do 2 apply list_elem_of_further. apply list_elem_of_here.
  - exists depKey, dep, kind. split; [| split; [exact Hname | exact Hpod]].
    vm_compute. do 2 apply list_elem_of_further. apply list_elem_of_here.
Defined.

(** The five parts of the statement about events and errors of the pod
    ensure, on one path. *)
Ltac ev_created :=
  let Hex := fresh in let c := fresh in let Hin := fresh in let Hc := fresh in
  intros Hex; apply Exists_exists in Hex as (c & Hin & Hc);
  elem_cases Hin; simplify_eq; try discriminate Hc;
  eexists _, _; elem_find.

Ltac created_ev :=
  let obj := fresh in let pod := fresh in let Hin := fresh in
  intros (obj & pod & Hin); elem_cases Hin; simplify_eq;
  solve [ repeat first [ apply Exists_cons_hd; reflexivity | apply Exists_cons_tl ] ].

Ltac create_err :=
  let obj := fresh in let err := fresh in let Hin := fresh in
  intros obj err Hin; elem_cases Hin; simplify_eq; reflexivity.

Ltac ok_observed :=
  let pod := fresh in let Hout := fresh in
  intros pod Hout; simplify_eq;
  first [ left; eexists; elem_find | right; eexists; elem_find ].

Ltac err_source :=
  let err := fresh in let Hout := fresh in
  intros err Hout; simplify_eq;
  (split;
   [ repeat constructor
   | first [ left; eexists; reflexivity
           | right; left; eexists; reflexivity
           | right; right; left; eexists; reflexivity
           | right; right; right; eexists; eassumption ] ]).

(** X7. [ensureSessionPod] emits the PodCreated event exactly when a
    [Create] succeeded, it returns a pod exactly when the cluster handed it
    one (through the lookup or through the creation), and every error it
    returns is the error of its last cluster call or of the owner-reference
    setup; in particular an AlreadyExists answer to [Create] is returned as
    an error, with no event. *)
Theorem ensureSessionPod_event_and_errors {W} (r : SessionBindingReconciler W)
    (b : SessionBinding) (w : W) :
  let out := value_of (ensureSessionPod r b) w in
  let d := calls (ensureSessionPod r b) w in
  (Exists (λ c, is_event c = true) d ↔ ∃ obj pod, CCreate obj (Ok pod) ∈ d) ∧
  (∀ obj err, CCreate obj (Err err) ∈ d → out = Err err) ∧
  (∀ pod, out = Ok pod → observed_pod d pod) ∧
  (∀ err, out = Err err →
     Forall (λ c, is_event c = false) d ∧
     ((∃ key, last d = Some (CGetPod key (Err err))) ∨
      (∃ key, d !! 1%nat = Some (CGetDeployment key (Err err))) ∨
      (∃ obj, last d = Some (CCreate obj (Err err))) ∨
      (∃ pod, SetControllerReference b pod (rScheme r) = Err err))).
Proof.
  unfold ensureSessionPod. unfold_M. simpl.
  run.
  all: (split;
        [ split; [ev_created | created_ev]
        | split; [create_err | split; [ok_observed | err_source]] ]).
Qed.

(** ** Active reconcile, further *)

(** X8. Active reconcile writes nothing but the status it is responsible
    for: the binding's metadata and spec, the stamped [observedGeneration]
    and [lastReconcileTime], and every condition whose type is not one of
    SessionDiscovered, PodReady and RouteConfigured come out as they went
    in, on every path. *)
Theorem reconcileActive_preserves_the_rest {W} (r : SessionBindingReconciler W)
    (b : SessionBinding) (w : W) :
  let b' := (value_of (reconcileActive r b) w).1 in
  Meta b' = Meta b ∧ Spec b' = Spec b ∧
  ObservedGeneration (Status b') = ObservedGeneration (Status b) ∧
  LastReconcileTime (Status b') = LastReconcileTime (Status b) ∧
  ∀ ty, ty ∉ reconciler_condition_types →
    FindStatusCondition (Conditions (Status b')) ty
      = FindStatusCondition (Conditions (Status b)) ty.
Proof.
  unfold reconcileActive, ensureSessionPod. unfold_M.
  run.
  all: frames.
  all: repeat (split; [congruence |]).
  all: intros ty Hty; unfold reconciler_condition_types in Hty;
       rewrite !not_elem_of_cons in Hty; destruct Hty as (Hsd & Hpr & Hrc & _).
  all: repeat match goal with
              | H : ∀ ty', ty' ≠ _ → FindStatusCondition ?cs ty' = _
                |- context [FindStatusCondition ?cs ?t] => rewrite (H t) by assumption
              end; reflexivity.
Qed.

(** X9. The Bound invariant. Whenever active reconcile ends in phase Bound,
    the three conditions SessionDiscovered, PodReady and RouteConfigured all
    read True (with reasons SessionActive, PodReady, RouteConfigured),
    [routeEndpoint] is not empty, the edge accepted exactly that endpoint for
    the binding's session, and the result is the zero result with no
    error. *)
Theorem reconcileActive_bound_invariant {W} (r : SessionBindingReconciler W)
    (b : SessionBinding) (w : W) :
  let '((b', (res, err)), _, d) := reconcileActive r b w in
  Phase (Status b') = SessionBindingPhaseBound →
  condition_is (Conditions (Status b')) ConditionSessionDiscovered ConditionTrue
    "SessionActive" "Cloudflare session is active" ∧
  condition_is (Conditions (Status b')) ConditionPodReady ConditionTrue
    "PodReady" "Session pod ready" ∧
  condition_is (Conditions (Status b')) ConditionRouteConfigured ConditionTrue
    "RouteConfigured" "Cloudflare route configured" ∧
  RouteEndpoint (Status b') ≠ "" ∧
  CEnsureRoute (SessionID (Spec b)) (RouteEndpoint (Status b')) None ∈ d ∧
  res = Result_zero ∧ err = None.
Proof.
  unfold reconcileActive, ensureSessionPod. unfold_M.
  run.
  all: frames; phases.
  all: intros Hp;
       try match goal with
           | H : Phase (Status ?s) = _, Hp : Phase (Status ?s) = _ |- _ =>
               rewrite H in Hp
           end; try discriminate Hp.
  all: normalize_objs.
  all: repeat match goal with
              | H : RouteEndpoint (Status ?s) = _ |- _ => rewrite H in *; clear H
              end.
  all: (split; [conds |]); (split; [conds |]); (split; [conds |]).
  all: (split; [eapply bool_decide_eq_false; eassumption |]).
  all: (split; [elem_find | split; reflexivity]).
Qed.

(** X10. The requeue table of active reconcile. It never asks for an
    immediate requeue; it asks to be called again in ten seconds exactly when
    it ends in Pending; in Bound and Expired it returns the zero result with
    no error; and it returns an error only when the pod ensure failed, in
    which case the phase is Error, the result is the zero result, the error
    is that of the failed step, and the edge was not asked for a route. *)
Theorem reconcileActive_requeue_table {W} (r : SessionBindingReconciler W)
    (b : SessionBinding) (w : W) :
  let '((b', (res, err)), _, d) := reconcileActive r b w in
  Requeue res = false ∧
  RequeueAfter res ∈ [0; 5 * Second; 10 * Second; Minute] ∧
  (Phase (Status b') = SessionBindingPhasePending ↔ res = Result_after (10 * Second)) ∧
  (Phase (Status b') = SessionBindingPhaseBound ∨
   Phase (Status b') = SessionBindingPhaseExpired → res = Result_zero ∧ err = None) ∧
  (∀ e, err = Some e →
     Phase (Status b') = SessionBindingPhaseError ∧ res = Result_zero ∧
     pod_ensure_error (rScheme r) (Meta b) d e ∧
     ∀ sessionID endpoint ret, CEnsureRoute sessionID endpoint ret ∉ d).
Proof.
  unfold reconcileActive, ensureSessionPod. unfold_M.
  run.
  all: frames; phases.
  all: split; [reflexivity |].
  all: split; [rewrite !elem_of_cons; simpl; tauto |].
  all: split;
    [ split; intros Hp;
      try match goal with
          | H : Phase (Status ?s) = _, Hp : Phase (Status ?s) = _ |- _ =>
              rewrite H in Hp
          end; try discriminate Hp; try reflexivity; try assumption |].
  all: split;
    [ intros [Hp | Hp];
      try match goal with
          | H : Phase (Status ?s) = _, Hp : Phase (Status ?s) = _ |- _ =>
              rewrite H in Hp
          end; try discriminate Hp; split; reflexivity |].
  all: intros err_ret Herr; simplify_eq.
  all: split; [reflexivity || assumption |]; split; [reflexivity |].
  all: split;
    [ unfold pod_ensure_error;
      first [ left; eexists; elem_find
            | right; left; eexists; elem_find
            | right; right; left; eexists; elem_find
            | right; right; right; eexists _, _; split; [| eassumption]; assumption ]
    | intros sid ep ret Hin; elem_cases Hin; simplify_eq;
      match goal with
      | H : Forall (λ c, ∃ t, c = CTimeNow t) ?l, Hin : _ ∈ ?l |- _ =>
          rewrite Forall_forall in H; destruct (H _ Hin) as [? ?]; discriminate
      end ].
Qed.

(** X11. Active reconcile only asks the edge well-formed questions: every
    [EnsureSession] and [EnsureRoute] it issues carries the binding's own
    session ID, which is not empty, and every [EnsureRoute] carries the
    non-empty endpoint derived from a ready pod the cluster returned in the
    same invocation. *)
Theorem reconcileActive_edge_calls_well_formed {W} (r : SessionBindingReconciler W)
    (b : SessionBinding) (w : W) :
  let d := calls (reconcileActive r b) w in
  (∀ sessionID ret, CEnsureSession sessionID ret ∈ d →
     sessionID = SessionID (Spec b) ∧ sessionID ≠ "") ∧
  (∀ sessionID endpoint ret, CEnsureRoute sessionID endpoint ret ∈ d →
     sessionID = SessionID (Spec b) ∧ sessionID ≠ "" ∧ endpoint ≠ "" ∧
     ∃ pod, observed_pod d pod ∧ isPodReady pod = true ∧ endpoint = podEndpoint pod).
Proof.
  unfold reconcileActive, ensureSessionPod. unfold_M.
  run.
  all: frames; normalize_objs.
  all: repeat match goal with
              | H : bool_decide _ = false |- _ => apply bool_decide_eq_false in H
              | H : negb _ = false |- _ => apply negb_false_iff in H
              end.
  all: (split; [intros sid ret Hin | intros sid ep ret Hin]).
  all: elem_cases Hin; simplify_eq.
  all: try match goal with
           | H : Forall (λ c, ∃ t, c = CTimeNow t) ?l, Hin : _ ∈ ?l |- _ =>
               rewrite Forall_forall in H; destruct (H _ Hin) as [? ?]; discriminate
           end.
  all: try (split; [reflexivity | assumption]).
  all: split; [reflexivity |]; split; [assumption |]; split; [assumption |].
  all: eexists; split; [| split; [eassumption | reflexivity]].
  all: apply observed_cons; apply observed_app;
       first [ apply (observed_get [])
             | do 2 apply observed_cons; apply (observed_create []) ].
Qed.

(** X12. When the edge does not confirm the session, active reconcile halts
    there: after an [EnsureSession] that failed or answered false, the
    invocation contains no cluster call, no event and no other edge call.
    A failure ends in phase Error with SessionDiscovered Unknown /
    CloudflareError carrying the error's text and a requeue after one minute;
    a plain false ends in phase Expired with SessionDiscovered False /
    NotFound and no requeue. *)
Theorem reconcileActive_halts_on_unverified_session {W}
    (r : SessionBindingReconciler W) (b : SessionBinding) (w : W) :
  let '((b', (res, err)), _, d) := reconcileActive r b w in
  ∀ sessionID exists_ sessionErr,
    CEnsureSession sessionID (exists_, sessionErr) ∈ d →
    (exists_, sessionErr) ≠ (true, None) →
    Forall (λ c, is_cluster_call c = false ∧ is_event c = false ∧
                 (is_edge_call c = true → c = CEnsureSession sessionID (exists_, sessionErr)))
           d ∧
    err = None ∧
    match sessionErr with
    | Some e =>
        Phase (Status b') = SessionBindingPhaseError ∧ res = Result_after Minute ∧
        condition_is (Conditions (Status b')) ConditionSessionDiscovered ConditionUnknown
          "CloudflareError" (Error e)
    | None =>
        Phase (Status b') = SessionBindingPhaseExpired ∧ res = Result_zero ∧
        condition_is (Conditions (Status b')) ConditionSessionDiscovered ConditionFalse
          "NotFound" "Cloudflare session not found"
    end.
Proof.
  unfold reconcileActive, ensureSessionPod. unfold_M.
  run.
  all: frames.
  all: intros sid ex serr Hin Hne; elem_cases Hin; simplify_eq.
  all: try match goal with
           | H : Forall (λ c, ∃ t, c = CTimeNow t) ?l, Hin : _ ∈ ?l |- _ =>
               rewrite Forall_forall in H; destruct (H _ Hin) as [? ?]; discriminate
           end.
  all: try match goal with
           | H : negb ?x = false |- _ =>
               apply negb_false_iff in H; subst; contradiction
           end.
  all: split;
    [ repeat first
        [ apply Forall_app_2
        | apply Forall_cons; split;
          [ split; [reflexivity | split; [reflexivity | intros; solve [reflexivity | discriminate]]] |]
        | apply Forall_nil_2
        | match goal with
          | H : Forall (λ c, ∃ t, c = CTimeNow t) ?l |- Forall _ ?l =>
              eapply Forall_impl; [exact H |];
              let c := fresh in let t := fresh in
              intros c [t ->]; split; [reflexivity | split; [reflexivity | discriminate]]
          end ]
    | split; [reflexivity |]; repeat split; assumption ].
Qed.

(** ** Status write-back and load *)

(** X13. [patchStatus] writes only on difference and only the status. It
    always re-reads the binding under the binding's own namespace and name;
    if the read fails, that error is returned and nothing is written; if the
    stored status equals the computed one, nothing is written and it
    succeeds; otherwise it issues exactly one status update, of the object
    it has just read with only the status replaced, and returns that
    update's outcome. *)
Theorem patchStatus_writes_status_on_difference {W} (r : SessionBindingReconciler W)
    (b : SessionBinding) (w : W) :
  let key := {| NNamespace := Namespace (Meta b); NName := Name (Meta b) |} in
  let err := value_of (patchStatus r b) w in
  let d := calls (patchStatus r b) w in
  (∃ e, d = [CGetBinding key (Err e)] ∧ err = Some e) ∨
  (∃ current, d = [CGetBinding key (Ok current)] ∧
              Status current = Status b ∧ err = None) ∨
  (∃ current ret,
     d = [CGetBinding key (Ok current);
          CStatusUpdate (set_Status (Status b) current) ret] ∧
     Status current ≠ Status b ∧ err = result_err ret ∧
     Meta (set_Status (Status b) current) = Meta current ∧
     Spec (set_Status (Status b) current) = Spec current).
Proof.
  unfold patchStatus. unfold_M. run.
  - right. left. eexists. repeat split.
    eapply bool_decide_eq_true. eassumption.
  - right. right. eexists _, _. repeat split.
    eapply bool_decide_eq_false. eassumption.
  - left. eexists. split; reflexivity.
Qed.

(** When the binding cannot be loaded, [Reconcile] stops after that one
    call and leaves the world as the load left it: a NotFound answer is
    success with the zero result, any other error is returned as it is. *)
Theorem Reconcile_load_failure {W} (r : SessionBindingReconciler W)
    (req : NamespacedName) (w w1 : W) (err : error) :
  Get_SessionBinding (rClient r) req w = (Err err, w1) →
  Reconcile r req w =
    ((Result_zero, if IsNotFound err then None else Some err), w1,
     [CGetBinding req (Err err)]).
Proof.
  intros Hget. unfold Reconcile, IgnoreNotFound. unfold_M. rewrite Hget. reflexivity.
Qed.

(** The same on the in-memory cluster: the binding does not exist. *)
Lemma Reconcile_load_failure_witness :
  Reconcile examples.reconciler_ok {| NNamespace := "ns"; NName := "gone" |}
            examples.cluster_fresh
  = ((Result_zero, None), examples.cluster_fresh,
     [CGetBinding {| NNamespace := "ns"; NName := "gone" |}
                  (Err (StatusError StatusReasonNotFound "not found"))]).
Proof.
  refine (Reconcile_load_failure examples.reconciler_ok
            {| NNamespace := "ns"; NName := "gone" |}
            examples.cluster_fresh examples.cluster_fresh
            (StatusError StatusReasonNotFound "not found") _).
  reflexivity.
Defined.

(** ** Teardown, further *)

(** X14. What a teardown never does. Every call of [handleDeletion] is a
    lookup of the pod named by [status.boundPod] (only when that name is not
    empty), the deletion of a pod that lookup returned, the retraction of the
    binding's own non-empty session ID, the log of a failed retraction, the
    CleanedUp event, or the write of the binding with the finalizer removed.
    So a teardown never reads or creates anything else, never writes status,
    never verifies a session or programs a route, and makes no edge call at
    all for a binding whose session ID is empty. *)
Theorem handleDeletion_calls {W} (r : SessionBindingReconciler W)
    (b : SessionBinding) (w : W) :
  let d := calls (handleDeletion r b) w in
  Forall (teardown_call b d) d ∧
  (SessionID (Spec b) = "" → Forall (λ c, is_edge_call c = false) d).
Proof.
  unfold handleDeletion, cleanupResources, cleanupPod, cleanupRoute. unfold_M.
  run.
  all: repeat match goal with
              | H : bool_decide _ = true |- _ => apply bool_decide_eq_true in H
              | H : bool_decide _ = false |- _ => apply bool_decide_eq_false in H
              end.
  all: split;
    [ repeat (apply Forall_cons; split; [simpl |]); try apply Forall_nil_2;
      try (split; [reflexivity | assumption]); try reflexivity;
      try (eexists; elem_find)
    | intros Hsid; repeat (apply Forall_cons; split; [try reflexivity |]);
      try apply Forall_nil_2; try contradiction;
      exfalso; auto ].
Qed.

(** ** The reconciler with the real edge client *)

(** X15. With the real edge client behind it, whatever its credentials,
    active reconcile of a binding with a non-empty session ID never ends in
    Expired and never waits a minute for the edge; every edge call it makes
    succeeds; and whenever the cluster hands it a ready pod with an IP, it
    ends in Bound with that pod's endpoint. *)
Theorem reconcileActive_with_APIClient {W} (r : SessionBindingReconciler W)
    (c : cloudflare.APIClient) (b : SessionBinding) (w : W) :
  CFClient r = APIClient_Client c →
  SessionID (Spec b) ≠ "" →
  let '((b', (res, err)), _, d) := reconcileActive r b w in
  Phase (Status b') ≠ SessionBindingPhaseExpired ∧
  RequeueAfter res ≠ Minute ∧
  (∀ sessionID ret, CEnsureSession sessionID ret ∈ d → ret = (true, None)) ∧
  (∀ sessionID endpoint ret, CEnsureRoute sessionID endpoint ret ∈ d → ret = None) ∧
  (∀ pod, observed_pod d pod → isPodReady pod = true → PodIP (PodStatus_ pod) ≠ "" →
     Phase (Status b') = SessionBindingPhaseBound ∧
     BoundPod (Status b') = Name (PodMeta pod) ∧
     RouteEndpoint (Status b') = podEndpoint pod ∧
     res = Result_zero ∧ err = None).
Proof.
  intros Hcf Hsid.
  unfold reconcileActive, ensureSessionPod. unfold_M.
  rewrite Hcf. simpl.
  unfold cloudflare.EnsureSession, cloudflare.EnsureRoute.
  rewrite (bool_decide_false _ Hsid).
  run.
  all: frames; phases; normalize_objs.
  all: repeat match goal with
              | H : bool_decide _ = true |- _ => apply bool_decide_eq_true in H
              | H : bool_decide _ = false |- _ => apply bool_decide_eq_false in H
              | H : negb _ = false |- _ => apply negb_false_iff in H
              | H : negb _ = true |- _ => apply negb_true_iff in H
              end.
  all: try contradiction.
  all: split;
    [ repeat match goal with H : Phase _ = _ |- _ => rewrite H end;
      distinct_types |].
  all: split; [distinct_types |].
  all: split;
    [ intros sid ret Hin; elem_cases Hin; simplify_eq; try reflexivity;
      match goal with
      | H : Forall (λ c, ∃ t, c = CTimeNow t) ?l, Hin : _ ∈ ?l |- _ =>
          rewrite Forall_forall in H; destruct (H _ Hin) as [? ?]; discriminate
      end |].
  all: split;
    [ intros sid ep ret Hin; elem_cases Hin; simplify_eq; try reflexivity;
      match goal with
      | H : Forall (λ c, ∃ t, c = CTimeNow t) ?l, Hin : _ ∈ ?l |- _ =>
          rewrite Forall_forall in H; destruct (H _ Hin) as [? ?]; discriminate
      end |].
  all: intros pod [[key Hin] | [obj Hin]] Hready Hip; elem_cases Hin; simplify_eq.
  all: try match goal with
           | H : Forall (λ c, ∃ t, c = CTimeNow t) ?l, Hin : _ ∈ ?l |- _ =>
               rewrite Forall_forall in H; destruct (H _ Hin) as [? ?]; discriminate
           end.
  all: try congruence.
  all: try (exfalso; apply Hip; apply podEndpoint_empty_no_IP; assumption).
  all: repeat split; assumption.
Qed.

(** X15 with a client that has both credentials and a binding for session
    [s1]. *)
Lemma reconcileActive_with_APIClient_witness :
  Phase (Status (value_of
    (reconcileActive
       (reconciler_with_APIClient fake.noFaults
          (cloudflare.NewClientFromEnv "acct-1" "token-1") examples.scheme 1000 2000)
       examples.binding_s1) examples.cluster_fresh).1)
  ≠ SessionBindingPhaseExpired.
Proof.
  pose proof (reconcileActive_with_APIClient
                (reconciler_with_APIClient fake.noFaults
                   (cloudflare.NewClientFromEnv "acct-1" "token-1")
                   examples.scheme 1000 2000)
                (cloudflare.NewClientFromEnv "acct-1" "token-1")
                examples.binding_s1 examples.cluster_fresh eq_refl) as H.
  unfold value_of.
  destruct (reconcileActive _ examples.binding_s1 examples.cluster_fresh)
    as [[[b' [res err]] w'] d].
  simpl. apply H. discriminate.
Defined.

(** ** A failed active reconcile still writes status *)

(** X16. When a step of the pod ensure fails (the pod lookup with an error
    other than NotFound, the deployment lookup, or the creation), the status
    pass of [Reconcile] returns exactly that error with the zero result, and
    it still runs the status write-back: the binding is re-read, and any
    status it writes carries phase Error.  The error of the active reconcile
    wins over whatever the write-back returns. *)
Theorem status_pass_reports_pod_ensure_failure {W} (r : SessionBindingReconciler W)
    (b : SessionBinding) (w : W) :
  let '((res, err), _, d) := Reconcile_status_pass r b w in
  ∀ e,
    (∃ key, CGetPod key (Err e) ∈ d ∧ IsNotFound e = false) ∨
    (∃ key, CGetDeployment key (Err e) ∈ d) ∨
    (∃ obj, CCreate obj (Err e) ∈ d) →
    res = Result_zero ∧ err = Some e ∧
    (∃ key ret, CGetBinding key ret ∈ d) ∧
    (∀ obj ret, CStatusUpdate obj ret ∈ d →
       Phase (Status obj) = SessionBindingPhaseError).
Proof.
  unfold Reconcile_status_pass, patchStatus, reconcileActive, ensureSessionPod.
  unfold_M. run.
  all: frames.
  all: intros err_in [(key & Hin & Hnf) | [(key & Hin) | (obj & Hin)]].
  all: elem_cases Hin; simplify_eq.
  all: try match goal with
           | H : Forall (λ c, ∃ t, c = CTimeNow t) ?l, Hin : _ ∈ ?l |- _ =>
               rewrite Forall_forall in H; destruct (H _ Hin) as [? ?]; discriminate
           end.
  all: try match goal with
           | H : negb (IsNotFound ?e) = false, H' : IsNotFound ?e = false |- _ =>
               rewrite H' in H; discriminate H
           end.
  all: (split; [reflexivity |]); (split; [reflexivity |]).
  all: (split; [eexists _, _; elem_find |]).
  all: intros obj_w ret_w Hin'; elem_cases Hin'; simplify_eq; try reflexivity.
  all: match goal with
       | H : Forall (λ c, ∃ t, c = CTimeNow t) ?l, Hin' : _ ∈ ?l |- _ =>
           rewrite Forall_forall in H; destruct (H _ Hin') as [? ?]; discriminate
       end.
Qed.

(** ** End states on the in-memory cluster *)

Section EndStates.

Variables (faults : fake.Faults) (e : fake.Edge) (scheme : Scheme).
Variables (clock wall : Time).

Local Abbreviation R := (fake.reconciler faults e scheme clock wall).

(** What a successful status pass on the stored binding stores. *)
Lemma status_pass_stores req b c res c1 d :
  fake.failGetBinding faults req = None →
  fake.lookup fake.bindingKey req (fake.bindings c) = Some b →
  fake.storedForm (Status b) = Status b →
  Reconcile_status_pass R b c = ((res, None), c1, d) →
  ∃ b', fake.lookup fake.bindingKey req (fake.bindings c1) = Some b' ∧
        Meta b' = Meta b ∧ Spec b' = Spec b ∧
        ObservedGeneration (Status b') = Generation (Meta b) ∧
        LastReconcileTime (Status b') = fake.storedTimePtr (Some clock).
Proof.
  intros Hfault Hlook Hform Hrun.
  pose proof (lookup_key _ _ _ _ Hlook) as Hkey.
  rewrite Reconcile_status_pass_unfold in Hrun. simpl in Hrun.
  destruct (reconcileActive R (stamped clock b) c) as [[[b3 [res0 rerr]] c_b] d_act] eqn:Hact.
  destruct rerr as [err |].
  { destruct (patchStatus R b3 c_b) as [[? ?] ?]. discriminate Hrun. }
  apply (reconcileActive_replay faults e scheme clock wall wall) in Hact
    as (Hbind & Hmeta & Hspec & Hog & Hlt & _).
  simpl in Hmeta, Hspec, Hog, Hlt.
  unfold patchStatus in Hrun. unfold_M. simpl in Hrun. unfold fake.get in Hrun.
  change {| NNamespace := Namespace (Meta b3); NName := Name (Meta b3) |}
    with (fake.bindingKey b3) in Hrun.
  assert (Hkey3 : fake.bindingKey b3 = req)
    by (unfold fake.bindingKey; rewrite Hmeta; exact Hkey).
  rewrite Hkey3, Hfault, Hbind, Hlook in Hrun. simpl in Hrun.
  destruct (bool_decide (Status b = Status b3)) eqn:Heq.
  - apply bool_decide_eq_true in Heq. simpl in Hrun. injection Hrun as <- <- <-.
    exists b. rewrite Hbind. repeat split; try assumption; try congruence.
    rewrite <- Hlt, <- Heq, <- Hform at 1. reflexivity.
  - unfold fake.statusUpdate in Hrun. simpl in Hrun.
    destruct (fake.failStatusUpdate faults (set_Status (Status b3) b)); [discriminate Hrun |].
    change (fake.bindingKey (set_Status (Status b3) b)) with (fake.bindingKey b) in Hrun.
    rewrite Hkey, Hbind, Hlook in Hrun. simpl in Hrun. injection Hrun as <- <- <-.
    set (b' := set_Status (fake.storedForm (Status b3)) b).
    exists b'. simpl.
    pose proof (lookup_replace fake.bindingKey b' (fake.bindings c)) as Hrep.
    change (fake.bindingKey b') with (fake.bindingKey b) in Hrep.
    rewrite Hkey, Hlook in Hrep.
    repeat split; try assumption; simpl; try congruence.
    rewrite Hlt. reflexivity.
Qed.

(** X17. After a successful invocation on a stored binding that is not under
    deletion and whose status is as the store keeps statuses, the cluster
    holds the binding with the operator finalizer, the spec it had, the
    metadata it had (the finalizer aside), and a status stamped with the
    binding's generation and with the clock's reading as the store keeps it:
    cut to the whole second. *)
Theorem Reconcile_success_leaves_finalizer_and_stamp req c b :
  fake.lookup fake.bindingKey req (fake.bindings c) = Some b →
  TimePtr_IsZero (DeletionTimestamp (Meta b)) = true →
  fake.storedForm (Status b) = Status b →
  (value_of (Reconcile R req) c).2 = None →
  ∃ b',
    fake.lookup fake.bindingKey req (fake.bindings (world_after (Reconcile R req) c))
      = Some b' ∧
    ContainsFinalizer b' sessionBindingFinalizer = true ∧
    Meta b' = Meta (AddFinalizer b sessionBindingFinalizer) ∧
    Spec b' = Spec b ∧
    ObservedGeneration (Status b') = Generation (Meta b') ∧
    LastReconcileTime (Status b') = fake.storedTimePtr (Some clock).
Proof.
  intros Hlook Hdel Hform Hok. unfold value_of, world_after in *.
  destruct (Reconcile R req c) as [[[res err] c1] d] eqn:Hrun.
  simpl in Hok. subst err. simpl.
  pose proof (lookup_key _ _ _ _ Hlook) as Hkey.
  unfold Reconcile in Hrun. unfold_M. simpl in Hrun. unfold fake.get in Hrun.
  destruct (fake.failGetBinding faults req) as [f |] eqn:Hfault.
  { simpl in Hrun. unfold IgnoreNotFound in Hrun.
    rewrite fault_error_not_NotFound in Hrun. discriminate Hrun. }
  rewrite Hlook in Hrun. simpl in Hrun. rewrite Hdel in Hrun. simpl in Hrun.
  destruct (ContainsFinalizer b sessionBindingFinalizer) eqn:Hfin; simpl in Hrun.
  - destruct (Reconcile_status_pass R b c) as [[[res0 err0] c0] d0] eqn:Hpass.
    simpl in Hrun. injection Hrun as -> -> -> <-.
    destruct (status_pass_stores req b c res c1 d0 Hfault Hlook Hform Hpass)
      as (b' & Hlook' & Hmeta & Hspec & Hog & Hlt).
    exists b'. unfold AddFinalizer. rewrite Hfin.
    repeat split; try assumption; try congruence.
    unfold ContainsFinalizer in *. rewrite Hmeta. exact Hfin.
  - unfold fake.update in Hrun.
    destruct (fake.failUpdate faults (AddFinalizer b sessionBindingFinalizer));
      [discriminate Hrun |].
    rewrite AddFinalizer_key, Hkey, Hlook in Hrun. simpl in Hrun.
    rewrite AddFinalizer_DeletionTimestamp, Hdel in Hrun. simpl in Hrun.
    set (b2 := set_Status (Status b) (AddFinalizer b sessionBindingFinalizer)) in *.
    set (c_a := fake.set_bindings (fake.replace fake.bindingKey b2 (fake.bindings c)) c) in *.
    destruct (Reconcile_status_pass R b2 c_a) as [[[res0 err0] c0] d0] eqn:Hpass.
    simpl in Hrun. injection Hrun as -> -> -> <-.
    assert (Hlook2 : fake.lookup fake.bindingKey req (fake.bindings c_a) = Some b2).
    { pose proof (lookup_replace fake.bindingKey b2 (fake.bindings c)) as Hrep.
      change (fake.bindingKey b2)
        with (fake.bindingKey (AddFinalizer b sessionBindingFinalizer)) in Hrep.
      rewrite AddFinalizer_key, Hkey, Hlook in Hrep. exact Hrep. }
    destruct (status_pass_stores req b2 c_a res c1 d0 Hfault Hlook2 Hform Hpass)
      as (b' & Hlook' & Hmeta & Hspec & Hog & Hlt).
    exists b'.
    assert (Hmeta2 : Meta b2 = Meta (AddFinalizer b sessionBindingFinalizer))
      by reflexivity.
    assert (Hspec2 : Spec b2 = Spec b)
      by (unfold b2, AddFinalizer; rewrite Hfin; reflexivity).
    repeat split; try assumption; try congruence.
    unfold ContainsFinalizer. rewrite Hmeta.
    exact (AddFinalizer_adds b sessionBindingFinalizer).
Qed.


End EndStates.

(** X17 on the fresh binding, with the clock a quarter of a second past a
    whole second: the stamp the cluster holds is the whole second. *)
Lemma Reconcile_success_leaves_finalizer_and_stamp_witness :
  let r := fake.reconciler fake.noFaults examples.edge_ok examples.scheme
             (1000 * Second + 250000000) (2000 * Second) in
  ∃ b',
    fake.lookup fake.bindingKey examples.req_b1
      (fake.bindings (world_after (Reconcile r examples.req_b1) examples.cluster_fresh))
      = Some b' ∧
    ContainsFinalizer b' sessionBindingFinalizer = true ∧
    LastReconcileTime (Status b') = Some (1000 * Second).
Proof.
  destruct (Reconcile_success_leaves_finalizer_and_stamp fake.noFaults examples.edge_ok
              examples.scheme (1000 * Second + 250000000) (2000 * Second)
              examples.req_b1 examples.cluster_fresh examples.binding_s1)
    as (b' & Hlook & Hfin & _ & _ & _ & Hstamp).
  - reflexivity.
  - reflexivity.
  - reflexivity.
  - vm_compute. reflexivity.
  - exists b'. split; [exact Hlook |]. split; [exact Hfin | exact Hstamp].
Defined.


(** ** Runs on concrete inputs *)

(** X9 on a cluster where the session pod runs and is ready. *)
Lemma reconcileActive_bound_invariant_witness :
  let out := reconcileActive examples.reconciler_ok examples.binding_s1
               example_cluster_ready in
  Phase (Status out.1.1.1) = SessionBindingPhaseBound ∧
  RouteEndpoint (Status out.1.1.1) ≠ "" ∧
  out.1.1.2 = (Result_zero, None).
Proof.
  intros out.
  pose proof (reconcileActive_bound_invariant examples.reconciler_ok
                examples.binding_s1 example_cluster_ready) as H.
  fold out in H.
  assert (Hp : Phase (Status out.1.1.1) = SessionBindingPhaseBound)
    by (vm_compute; reflexivity).
  destruct out as [[[b' [res err]] w'] d]. simpl in *.
  destruct (H Hp) as (_ & _ & _ & Hne & _ & -> & ->).
  repeat split; assumption.
Defined.

(** X12 with an edge that no longer knows the session. *)
Lemma reconcileActive_halts_on_unverified_session_witness :
  let out := reconcileActive
               (fake.reconciler fake.noFaults example_edge_session_gone
                  examples.scheme 1000 2000)
               examples.binding_s1 examples.cluster_fresh in
  Phase (Status out.1.1.1) = SessionBindingPhaseExpired ∧
  Forall (λ c, is_cluster_call c = false) out.2.
Proof.
  intros out.
  pose proof (reconcileActive_halts_on_unverified_session
                (fake.reconciler fake.noFaults example_edge_session_gone
                   examples.scheme 1000 2000)
                examples.binding_s1 examples.cluster_fresh) as H.
  fold out in H.
  assert (Hin : CEnsureSession "s1" (false, None) ∈ out.2)
    by (vm_compute; apply list_elem_of_here).
  destruct out as [[[b' [res err]] w'] d]. simpl in *.
  destruct (H "s1" false None Hin) as (Hcalls & _ & Hphase & _); [discriminate |].
  split; [exact Hphase |].
  eapply Forall_impl; [exact Hcalls |]. intros c (Hc & _). exact Hc.
Defined.

(** X16 on a cluster without the target deployment. *)
Lemma status_pass_reports_pod_ensure_failure_witness :
  (value_of (Reconcile_status_pass examples.reconciler_ok examples.binding_s1)
            example_cluster_without_deployment).2
  = Some (StatusError StatusReasonNotFound "not found").
Proof.
  pose proof (status_pass_reports_pod_ensure_failure examples.reconciler_ok
                examples.binding_s1 example_cluster_without_deployment) as H.
  unfold value_of.
  assert (Hin : CGetDeployment {| NNamespace := "ns"; NName := "web" |}
                  (Err (StatusError StatusReasonNotFound "not found"))
                ∈ (Reconcile_status_pass examples.reconciler_ok examples.binding_s1
                     example_cluster_without_deployment).2).
  { vm_compute. do 4 apply list_elem_of_further. apply list_elem_of_here. }
  destruct (Reconcile_status_pass examples.reconciler_ok examples.binding_s1
              example_cluster_without_deployment) as [[[res err] w'] d].
  simpl in *.
  destruct (H (StatusError StatusReasonNotFound "not found")) as (_ & -> & _);
    [| reflexivity].
  right. left. eexists. exact Hin.
Defined.


(** ** Where the errors of [Reconcile] come from *)

(** Find in a trace a call that returned the error in the goal. *)
Ltac find_failed_call :=
  solve [ repeat first [ apply Exists_cons_hd; reflexivity
                       | apply Exists_cons_tl
                       | (apply Exists_app; right) ] ].

Lemma reconcileActive_error_source {W} (r : SessionBindingReconciler W)
    (b : SessionBinding) (w : W) :
  let '((_, (_, err)), _, d) := reconcileActive r b w in
  ∀ e, err = Some e →
    Exists (λ c, call_error c = Some e) d ∨
    (∃ owner pod, SetControllerReference owner pod (rScheme r) = Err e).
Proof.
  unfold reconcileActive, ensureSessionPod. unfold_M. run.
  all: intros err_ret Herr; simplify_eq.
  all: first [ right; eexists _, _; eassumption | left; find_failed_call ].
Qed.

Lemma patchStatus_error_source {W} (r : SessionBindingReconciler W)
    (b : SessionBinding) (w : W) :
  let '(err, _, d) := patchStatus r b w in
  ∀ e, err = Some e → Exists (λ c, call_error c = Some e) d.
Proof.
  unfold patchStatus. unfold_M. run.
  all: intros err_ret Herr; simplify_eq.
  all: repeat match goal with
              | H : result_err ?x = Some _ |- _ => destruct x; simpl in H; simplify_eq
              end.
  all: find_failed_call.
Qed.

Lemma handleDeletion_error_source {W} (r : SessionBindingReconciler W)
    (b : SessionBinding) (w : W) :
  let '((_, err), _, d) := handleDeletion r b w in
  ∀ e, err = Some e → Exists (λ c, call_error c = Some e) d.
Proof.
  unfold handleDeletion, cleanupResources, cleanupPod, cleanupRoute. unfold_M. run.
  all: intros err_ret Herr; simplify_eq.
  all: find_failed_call.
Qed.

Lemma status_pass_error_source {W} (r : SessionBindingReconciler W)
    (b : SessionBinding) (w : W) :
  let '((_, err), _, d) := Reconcile_status_pass r b w in
  ∀ e, err = Some e →
    Exists (λ c, call_error c = Some e) d ∨
    (∃ owner pod, SetControllerReference owner pod (rScheme r) = Err e).
Proof.
  rewrite Reconcile_status_pass_unfold.
  destruct (Now (rClock r) w) as [now w1].
  pose proof (reconcileActive_error_source r (stamped now b) w1) as Hact.
  destruct (reconcileActive r (stamped now b) w1) as [[[b' [res rerr]] w2] d_act].
  pose proof (patchStatus_error_source r b' w2) as Hpatch.
  destruct (patchStatus r b' w2) as [[serr w3] d_patch].
  intros e He. destruct rerr as [e' |].
  - injection He as ->. destruct (Hact e eq_refl) as [Hex | Hown]; [left | right; exact Hown].
    apply Exists_cons_tl. apply Exists_app. left. exact Hex.
  - left. apply Exists_cons_tl. apply Exists_app. right. apply Hpatch. exact He.
Qed.

(** X19. [Reconcile] never makes up an error: whenever it returns one, a
    call to the cluster or to the edge made in the same invocation returned
    exactly that error, or the owner-reference setup did.  So an invalid
    spec, an expired session, a pod that is not ready, a pod without IP and
    a load that answers NotFound produce no error of their own. *)
Theorem Reconcile_errors_come_from_calls {W} (r : SessionBindingReconciler W)
    (req : NamespacedName) (w : W) :
  let '((res, err), _, d) := Reconcile r req w in
  ∀ e, err = Some e →
    Exists (λ c, call_error c = Some e) d ∨
    (∃ owner pod, SetControllerReference owner pod (rScheme r) = Err e).
Proof.
  unfold Reconcile, IgnoreNotFound. unfold_M.
  destruct (Get_SessionBinding (rClient r) req w) as [[b | err0] w1]; simpl.
  2: { destruct (IsNotFound err0); intros e He; [discriminate |].
       injection He as ->. left. apply Exists_cons_hd. reflexivity. }
  destruct (negb (TimePtr_IsZero (DeletionTimestamp (Meta b)))).
  { pose proof (handleDeletion_error_source r b w1) as H.
    destruct (handleDeletion r b w1) as [[[res err] w2] d].
    intros e He. left. apply Exists_cons_tl. apply H. exact He. }
  destruct (negb (ContainsFinalizer b sessionBindingFinalizer)); simpl.
  - destruct (Update (rClient r) (AddFinalizer b sessionBindingFinalizer) w1)
      as [[b2 | err0] w2]; simpl.
    + pose proof (status_pass_error_source r b2 w2) as H.
      destruct (Reconcile_status_pass r b2 w2) as [[[res err] w3] d].
      intros e He. destruct (H e He) as [Hex | Hown]; [left | right; exact Hown].
      do 2 apply Exists_cons_tl. exact Hex.
    + intros e He. injection He as ->. left.
      apply Exists_cons_tl. apply Exists_cons_hd. reflexivity.
  - pose proof (status_pass_error_source r b w1) as H.
    destruct (Reconcile_status_pass r b w1) as [[[res err] w3] d].
    intros e He. destruct (H e He) as [Hex | Hown]; [left | right; exact Hown].
    apply Exists_cons_tl. exact Hex.
Qed.

(** X19 on a cluster without the target deployment: the NotFound that
    [Reconcile] returns is the answer to the deployment lookup. *)
Lemma Reconcile_errors_come_from_calls_witness :
  Exists (λ c, call_error c = Some (StatusError StatusReasonNotFound "not found"))
         (Reconcile examples.reconciler_ok examples.req_b1
            example_cluster_without_deployment).2.
Proof.
  pose proof (Reconcile_errors_come_from_calls examples.reconciler_ok examples.req_b1
                example_cluster_without_deployment) as H.
  assert (Herr : (Reconcile examples.reconciler_ok examples.req_b1
                    example_cluster_without_deployment).1.1.2
                 = Some (StatusError StatusReasonNotFound "not found"))
    by (vm_compute; reflexivity).
  destruct (Reconcile examples.reconciler_ok examples.req_b1
              example_cluster_without_deployment) as [[[res err] w'] d].
  simpl in *.
  destruct (H _ Herr) as [Hex | (owner & pod & Hown)]; [exact Hex |].
  exfalso. unfold SetControllerReference in Hown. simpl in Hown.
  repeat case_match; discriminate.
Defined.
